(** * Ollama chat: conversation cache, request layer, worker and retrieval

    A shallow embedding of the core of the application:
    - [ollama_worker.py]: [RequestManager] (retry policy, backoff,
      [get_models], [test_connection], the streaming generator
      [chat_stream]), [ConversationManager] (the bounded message cache),
      [OllamaWorker] (the single-flight orchestrator and its two tasks) and
      [ConnectionMonitor];
    - [project_manager.py]: [FileManager] as far as retrieval reads it
      ([_process_content], [get_files], [search_in_files]),
      [KnowledgeBase.get_context_for_query] and
      [KnowledgeBase._extract_relevant_snippet].

    Python [int] is [Z]; [str] is [string] (characters are the code points
    below 256); a [list] is a [list]; [None] is [None]. *)

From Stdlib Require Import List String Ascii ZArith QArith Qminmax Lia Lqa Bool.
From Stdlib Require Import Sorted Permutation.
Import ListNotations.

Open Scope Z_scope.

(** ** Python primitives used by the code *)

Module Py.

(** [len(x)] as a Python int. *)
Definition len {A} (l : list A) : Z := Z.of_nat (List.length l).
Definition slen (s : string) : Z := Z.of_nat (String.length s).

(** How a slice bound [i] is resolved against a sequence of length [n]:
    a negative bound counts from the end, and every bound is clamped to
    [0..n].  Note that [-0] is [0], so [l[-0:]] is the whole of [l]. *)
Definition clamp (n i : Z) : Z :=
  if i <? 0 then Z.max 0 (n + i) else Z.min i n.

(** [l[i:]] *)
Definition slice_from {A} (i : Z) (l : list A) : list A :=
  skipn (Z.to_nat (clamp (len l) i)) l.

(** [l[:j]] *)
Definition slice_to {A} (j : Z) (l : list A) : list A :=
  firstn (Z.to_nat (clamp (len l) j)) l.

Fixpoint str_skipn (n : nat) (s : string) : string :=
  match n, s with
  | O, _ => s
  | S _, EmptyString => EmptyString
  | S n', String _ s' => str_skipn n' s'
  end.

Fixpoint str_firstn (n : nat) (s : string) : string :=
  match n, s with
  | O, _ => EmptyString
  | S _, EmptyString => EmptyString
  | S n', String c s' => String c (str_firstn n' s')
  end.

(** [s[i:j]] *)
Definition str_slice (i j : Z) (s : string) : string :=
  let lo := clamp (slen s) i in
  let hi := clamp (slen s) j in
  str_firstn (Z.to_nat (hi - lo)) (str_skipn (Z.to_nat lo) s).

(** [s[:j]] *)
Definition str_slice_to (j : Z) (s : string) : string :=
  str_firstn (Z.to_nat (clamp (slen s) j)) s.

(** [str.isspace] on one character, for the code points below 256. *)
Definition isspace (c : ascii) : bool :=
  let n := nat_of_ascii c in
  ((9 <=? n) && (n <=? 13) || (28 <=? n) && (n <=? 32)
   || (n =? 133) || (n =? 160))%nat.

Fixpoint lstrip (s : string) : string :=
  match s with
  | EmptyString => EmptyString
  | String c s' => if isspace c then lstrip s' else s
  end.

Fixpoint rstrip (s : string) : string :=
  match s with
  | EmptyString => EmptyString
  | String c s' =>
      match rstrip s' with
      | EmptyString => if isspace c then EmptyString else String c EmptyString
      | r => String c r
      end
  end.

(** [s.strip()] *)
Definition strip (s : string) : string := rstrip (lstrip s).

(** Truthiness of a [str]: non-empty. *)
Definition truthy (s : string) : bool :=
  match s with EmptyString => false | _ => true end.

(** [s.split()]: the maximal runs of non-whitespace characters. *)
Fixpoint split_aux (cur : string) (s : string) : list string :=
  match s with
  | EmptyString => if truthy cur then [cur] else []
  | String c s' =>
      if isspace c
      then (if truthy cur then cur :: split_aux EmptyString s'
            else split_aux EmptyString s')
      else split_aux (cur ++ String c EmptyString)%string s'
  end.

Definition split (s : string) : list string := split_aux EmptyString s.

(** [hay.find(needle)]: the least index at which [needle] occurs, or -1. *)
Fixpoint find_from (needle hay : string) (i : nat) : option nat :=
  if String.prefix needle hay then Some i
  else match hay with
       | EmptyString => None
       | String _ hay' => find_from needle hay' (S i)
       end.

Definition find (hay needle : string) : Z :=
  match find_from needle hay 0 with
  | Some i => Z.of_nat i
  | None => -1
  end.

(** [str.lower] on the ASCII letters. *)
Definition lower_ascii (c : ascii) : ascii :=
  let n := nat_of_ascii c in
  if ((65 <=? n) && (n <=? 90))%nat then ascii_of_nat (n + 32) else c.

Fixpoint lower (s : string) : string :=
  match s with
  | EmptyString => EmptyString
  | String c s' => String (lower_ascii c) (lower s')
  end.

(** A stable sort: [le x y] says that [x] may stand before [y]. *)
Fixpoint insert_by {A} (le : A -> A -> bool) (x : A) (l : list A) : list A :=
  match l with
  | [] => [x]
  | y :: l' => if le x y then x :: l else y :: insert_by le x l'
  end.

Definition sort_by {A} (le : A -> A -> bool) (l : list A) : list A :=
  fold_right (insert_by le) [] l.

(** The newline character. *)
Definition nl : string := String (ascii_of_nat 10) EmptyString.




End Py.

(** ** ConversationManager: the bounded message cache *)

Module Conversation.

Record message := mkMessage {
  role : string;
  content : string;
  timestamp : Z      (* the reading of [time.time()] when it was added *)
}.

Record ConversationManager := mkCM {
  messages : list message;
  max_messages : Z
}.

(** [ConversationManager(max_messages)] *)
Definition new (max_messages : Z) : ConversationManager :=
  mkCM [] max_messages.

(** [msg['role'] == 'system'] *)
Definition is_system (m : message) : bool := (role m =? "system")%string.
Definition not_system (m : message) : bool := negb (is_system m).

Definition _trim_messages (cm : ConversationManager) : ConversationManager :=
  if Py.len (messages cm) <=? max_messages cm then cm
  else
    let system_messages := filter is_system (messages cm) in
    let other_messages := filter not_system (messages cm) in
    match system_messages with
    | _ :: _ =>
        let keep_count := max_messages cm - Py.len system_messages in
        mkCM (system_messages ++ Py.slice_from (- keep_count) other_messages)
             (max_messages cm)
    | [] =>
        mkCM (Py.slice_from (- max_messages cm) (messages cm))
             (max_messages cm)
    end.

Definition add_message (cm : ConversationManager)
    (role content : string) (now : Z) : ConversationManager :=
  _trim_messages
    (mkCM (messages cm ++ [mkMessage role content now]) (max_messages cm)).

(** [get_messages]: the messages as sent to the API, the timestamp dropped. *)
Definition get_messages (cm : ConversationManager) : list (string * string) :=
  map (fun m => (role m, content m)) (messages cm).

Definition clear (cm : ConversationManager) : ConversationManager :=
  mkCM [] (max_messages cm).

Definition get_message_count (cm : ConversationManager) : Z :=
  Py.len (messages cm).

Definition set_system_message (cm : ConversationManager)
    (content : string) (now : Z) : ConversationManager :=
  let msgs := filter not_system (messages cm) in
  if Py.truthy (Py.strip content)
  then mkCM (mkMessage "system" content now :: msgs) (max_messages cm)
  else mkCM msgs (max_messages cm).

(** The operations a caller can apply to the cache. *)
Inductive op :=
| Append (role content : string) (now : Z)
| SetSystem (content : string) (now : Z).

Definition apply (cm : ConversationManager) (o : op) : ConversationManager :=
  match o with
  | Append r c t => add_message cm r c t
  | SetSystem c t => set_system_message cm c t
  end.

Definition run (cm : ConversationManager) (ops : list op) : ConversationManager :=
  fold_left apply ops cm.

Definition system_count (cm : ConversationManager) : Z :=
  Py.len (filter is_system (messages cm)).

(** An operation that does not append a message with role "system". *)
Definition appends_no_system (o : op) : Prop :=
  match o with
  | Append r _ _ => r <> "system"%string
  | SetSystem _ _ => True
  end.

(** The pinning invariant in the words of the data model: at most one system
    message, and a system message can only sit at index 0. *)
Definition system_pinned (msgs : list message) : Prop :=
  Py.len (filter is_system msgs) <= 1 /\
  forall i m, nth_error msgs i = Some m -> is_system m = true -> i = 0%nat.

End Conversation.

(** ** RequestManager: retry policy, backoff, [get_models], [chat_stream] *)

Module Request.

Inductive RequestState :=
| IDLE | CONNECTING | STREAMING | COMPLETED | STOPPED | ERROR.

(** The exceptions a request can end in.  [HTTPError] carries the status of
    the response attached to it, when there is one. *)
Inductive exn :=
| ConnectionError
| Timeout
| HTTPError (response : option Z)
| OtherError.

(** The two facts about the [requests] library the code relies on:
    [Response.raise_for_status()] raises [HTTPError(response=self)] exactly
    for a status in 400..599, and the truth value of a [Response] is its
    [ok] attribute, false exactly when [raise_for_status] would raise. *)
Definition status_raises (status : Z) : bool :=
  (400 <=? status) && (status <? 600).

Definition response_truthy (status : Z) : bool := negb (status_raises status).

(** [exception.response and 500 <= exception.response.status_code < 600] *)
Definition response_is_5xx (response : option Z) : bool :=
  match response with
  | None => false
  | Some status =>
      if response_truthy status
      then (500 <=? status) && (status <? 600)
      else false
  end.

Definition _should_retry (max_retries : Z) (exception : exn) (attempt : Z) : bool :=
  if attempt >=? max_retries then false
  else match exception with
       | ConnectionError | Timeout => true
       | HTTPError response => if response_is_5xx response then true else false
       | OtherError => false
       end.

(** [_exponential_backoff]; [u] is the draw of [random.uniform(0, 1)].
    Seconds are exact rationals here. *)
Definition _exponential_backoff (attempt : Z) (u : Q) : Q :=
  let base_delay := 1%Q in
  let max_delay := 30%Q in
  Qmin (base_delay * inject_Z (2 ^ attempt) + u) max_delay.

(** [sorted(models)] *)
Definition sorted (l : list string) : list string := Py.sort_by String.leb l.

(** What the server does with one GET of /api/tags: the call raises, or a
    response arrives with a status and a body; [None] is a body from which
    the model names cannot be read. *)
Inductive get_reply :=
| GetRaises (e : exn)
| GetStatus (status : Z) (names : option (list string)).

(** The body of the [try] of [get_models]. *)
Definition get_once (r : get_reply) : list string + exn :=
  match r with
  | GetRaises e => inr e
  | GetStatus status names =>
      if status_raises status then inr (HTTPError (Some status))
      else match names with
           | Some models => inl (sorted models)
           | None => inr OtherError
           end
  end.

Record get_models_run := mkRun {
  gm_attempts : nat;               (* GETs issued *)
  gm_sleeps : list Q;              (* the delays slept, in order *)
  gm_result : list string + option exn   (* models, or OllamaError(last) *)
}.

Section GetModels.

Variable max_retries : Z.
Variable server : Z -> get_reply.  (* the reply to the GET of each attempt *)
Variable jitter : Z -> Q.          (* the random draw used after each attempt *)

(** The loop [for attempt in range(max_retries + 1)], [n] iterations left. *)
Fixpoint get_models_loop (n : nat) (attempt : Z) (made : nat)
    (sleeps : list Q) (last_exception : option exn) : get_models_run :=
  match n with
  | O => mkRun made sleeps (inr last_exception)
  | S n' =>
      match get_once (server attempt) with
      | inl models => mkRun (S made) sleeps (inl models)
      | inr e =>
          if _should_retry max_retries e attempt
          then get_models_loop n' (attempt + 1) (S made)
                 (sleeps ++ [_exponential_backoff attempt (jitter attempt)])
                 (Some e)
          else mkRun (S made) sleeps (inr (Some e))
      end
  end.

Definition get_models : get_models_run :=
  get_models_loop (Z.to_nat (max_retries + 1)) 0 0 [] None.

End GetModels.

(** One decoded line of the chat stream: the content under
    [chunk['message']['content']] when both keys are there, and the truth
    value of [chunk.get('done', False)]. *)
Record chunk := mkChunk {
  message_content : option string;
  done : bool
}.

(** A line as [iter_lines] hands it over. *)
Inductive line :=
| EmptyLine                 (* [if line:] fails *)
| BadJson                   (* [json.loads] raises JSONDecodeError *)
| Json (c : chunk).

(** What the server does with one POST of /api/chat: the call raises, or a
    response arrives with a status and a body of lines, after which the
    stream ends or reading it raises. *)
Inductive post_reply :=
| PostRaises (e : exn)
| PostStatus (status : Z) (lines : list line) (ending : option exn).

(** The places where the stop event is read. *)
Inductive site :=
| BeforeStart      (* worker, before anything else *)
| OnDelta          (* worker, on every chunk received *)
| PreConnect       (* chat_stream, before each POST *)
| OnLine           (* chat_stream, on every line *)
| OnFailure        (* chat_stream, in the exception handlers *)
| AfterRetries     (* chat_stream, after the attempt loop *)
| WorkerExcept     (* worker, in its exception handlers *)
| Final.           (* worker, after the stream *)

(** What a task has done so far. *)
Record io := mkIo {
  log : list (site * bool);   (* every read of the stop event, in order *)
  posts : nat;                (* POSTs issued *)
  lines_read : nat;           (* lines taken from the response *)
  sleeps : list Z;            (* attempts after which the request slept *)
  state : RequestState
}.

Definition io0 : io := mkIo [] 0 0 [] IDLE.

Definition set_state (s : RequestState) (i : io) : io :=
  mkIo (log i) (posts i) (lines_read i) (sleeps i) s.
Definition count_post (i : io) : io :=
  mkIo (log i) (S (posts i)) (lines_read i) (sleeps i) (state i).
Definition count_line (i : io) : io :=
  mkIo (log i) (posts i) (S (lines_read i)) (sleeps i) (state i).
Definition sleep (attempt : Z) (i : io) : io :=
  mkIo (log i) (posts i) (lines_read i) (sleeps i ++ [attempt]) (state i).

(** How the body of a [for] loop over a generator ends one round, and how
    the whole loop ends. *)
Inductive body_result (A R : Type) :=
| Continue (a : A) (i : io)
| Break (a : A) (i : io)
| Return (r : R) (i : io).

Inductive for_result (A R : Type) :=
| Exhausted (a : A) (i : io)                 (* the generator returned *)
| Broken (a : A) (i : io)                    (* the body did [break] *)
| Returned (r : R) (i : io)                  (* the body did [return] *)
| Raised (a : A) (last : option exn) (i : io).  (* OllamaError *)

Arguments Continue {A R}.
Arguments Break {A R}.
Arguments Return {A R}.
Arguments Exhausted {A R}.
Arguments Broken {A R}.
Arguments Returned {A R}.
Arguments Raised {A R}.

Section ChatStream.

Variable max_retries : Z.
Variable server : Z -> post_reply.   (* the reply to the POST of each attempt *)
(** The stop event is set by another thread: [stop n] is what the [n]-th
    read of it during the task returns. *)
Variable stop : nat -> bool.

(** [stop_event.is_set()] *)
Definition is_set (s : site) (i : io) : bool * io :=
  let b := stop (List.length (log i)) in
  (b, mkIo (log i ++ [(s, b)]) (posts i) (lines_read i) (sleeps i) (state i)).

Context {A R : Type}.
(** The body of the consumer's [for chunk in chat_stream(...)] loop. *)
Variable body : chunk -> A -> io -> body_result A R.

(** The code after the attempt loop. *)
Definition after_retries (last : option exn) (a : A) (i : io) : for_result A R :=
  let (b, i) := is_set AfterRetries i in
  if b then Exhausted a (set_state STOPPED i)
  else Raised a last i.

(** The two [except] clauses of [chat_stream]; they differ in what they
    print only.  [again] is the next round of the attempt loop. *)
Definition on_failure (attempt : Z) (e : exn)
    (again : option exn -> A -> io -> for_result A R)
    (a : A) (i : io) : for_result A R :=
  let i := set_state ERROR i in
  let (b, i) := is_set OnFailure i in
  if b then Exhausted a (set_state STOPPED i)
  else if _should_retry max_retries e attempt
       then again (Some e) a (sleep attempt i)
       else after_retries (Some e) a i.

(** [for line in response.iter_lines(...)]; [at_end] is what follows the
    last line: the normal end of the stream, or the handler of the
    exception that reading raised. *)
Fixpoint stream_lines (at_end : A -> io -> for_result A R)
    (ls : list line) (a : A) (i : io) : for_result A R :=
  match ls with
  | [] => at_end a i
  | l :: ls' =>
      let i := count_line i in
      let (b, i) := is_set OnLine i in
      if b then Exhausted a (set_state STOPPED i)
      else match l with
           | EmptyLine | BadJson => stream_lines at_end ls' a i
           | Json c =>
               match body c a i with
               | Continue a i => stream_lines at_end ls' a i
               | Break a i => Broken a i
               | Return r i => Returned r i
               end
           end
  end.

(** [for attempt in range(max_retries + 1)], [n] iterations left. *)
Fixpoint attempts (n : nat) (attempt : Z) (last : option exn)
    (a : A) (i : io) : for_result A R :=
  match n with
  | O => after_retries last a i
  | S n' =>
      let i := set_state CONNECTING i in
      let (b, i) := is_set PreConnect i in
      if b then Exhausted a (set_state STOPPED i)
      else
        let again := attempts n' (attempt + 1) in
        let i := count_post i in
        match server attempt with
        | PostRaises e => on_failure attempt e again a i
        | PostStatus status lines ending =>
            if status_raises status
            then on_failure attempt (HTTPError (Some status)) again a i
            else
              stream_lines
                (fun a i =>
                   match ending with
                   | None => Exhausted a (set_state COMPLETED i)
                   | Some e => on_failure attempt e again a i
                   end)
                lines a (set_state STREAMING i)
        end
  end.

(** [chat_stream(...)] driven by a consumer loop. *)
Definition chat_stream (a : A) (i : io) : for_result A R :=
  attempts (Z.to_nat (max_retries + 1)) 0 None a i.

End ChatStream.


End Request.

(** ** OllamaWorker: the single-flight orchestrator *)

Module Worker.

Import Request.

(** The Qt signals the worker emits. *)
Inductive signal :=
| models_received (models : list string)
| message_chunk_received (content : string)
| message_completed (full_response : string)
| error_occurred (text : string)
| connection_status_changed (connected : bool)
| generation_stopped.

Record OllamaWorker := mkWorker {
  current_task : option string;
  current_model : option string;
  stop_event : bool;
  is_busy : bool;
  is_running : bool;       (* [isRunning()]: the thread has been started *)
  conversation : Conversation.ConversationManager
}.

(** Truthiness of [self.current_model]: neither [None] nor the empty string. *)
Definition model_selected (m : option string) : bool :=
  match m with
  | Some s => Py.truthy s
  | None => false
  end.

Definition set_model (w : OllamaWorker) (model : string) : OllamaWorker :=
  mkWorker (current_task w) (Some model) (stop_event w) (is_busy w)
           (is_running w) (conversation w).

Definition stop_generation (w : OllamaWorker) : OllamaWorker :=
  mkWorker (current_task w) (current_model w) true (is_busy w)
           (is_running w) (conversation w).

(** [load_models]: the value returned and the worker afterwards. *)
Definition load_models (w : OllamaWorker) : bool * OllamaWorker :=
  if is_busy w then (false, w)
  else (true, mkWorker (Some "load_models"%string) (current_model w)
                       (stop_event w) (is_busy w) true (conversation w)).

Definition final_message (message context : string) : string :=
  if Py.truthy (Py.strip context)
  then (Py.strip context ++ Py.nl ++ Py.nl ++ "DOMANDA UTENTE: " ++ message
        ++ Py.nl ++ Py.nl
        ++ "Rispondi utilizzando le informazioni del contesto quando rilevanti.")%string
  else message.

(** [send_message]: the value returned, the signals emitted and the worker
    afterwards. *)
Definition send_message (w : OllamaWorker) (message context : string) (now : Z)
    : bool * list signal * OllamaWorker :=
  if negb (model_selected (current_model w))
  then (false, [error_occurred "Nessun modello selezionato"], w)
  else if is_busy w then (false, [], w)
  else (true, [],
        mkWorker (Some "send_message"%string) (current_model w)
                 (stop_event w) (is_busy w) true
                 (Conversation.add_message (conversation w) "user"
                    (final_message message context) now)).

(** The local variables of [_handle_send_message] that the loop updates,
    with the signals emitted so far. *)
Record acc := mkAcc {
  full_response : string;
  chunk_count : Z;
  stream_started : bool;
  emitted : list signal
}.

Section Handler.

Variable max_retries : Z.
Variable server : Z -> post_reply.
Variable stop : nat -> bool.
Variable str_exn : option exn -> string.   (* [str(last_exception)] *)

(** The body of [for chunk in stream_iterator]. *)
Definition on_chunk (c : chunk) (a : acc) (i : io)
    : body_result acc (list signal) :=
  let a := mkAcc (full_response a) (chunk_count a) true (emitted a) in
  let (b, i) := is_set stop OnDelta i in
  if b then Return (emitted a ++ [generation_stopped]) i
  else
    let a :=
      match message_content c with
      | Some content =>
          if Py.truthy content
          then mkAcc (full_response a ++ content)%string (chunk_count a + 1)
                     (stream_started a)
                     (emitted a ++ [message_chunk_received content])
          else a
      | None => a
      end in
    if done c then Break a i else Continue a i.

(** [_handle_send_message]: the signals emitted, the cache afterwards and
    what the task did.  [chat_stream] is a generator, so the
    [stream_iterator is None] test never succeeds. *)
Definition _handle_send_message (current_model : option string)
    (conversation : Conversation.ConversationManager) (now : Z)
    : list signal * Conversation.ConversationManager * io :=
  if negb (model_selected current_model)
  then ([error_occurred "Nessun modello selezionato"], conversation, io0)
  else
    let (b, i) := is_set stop BeforeStart io0 in
    if b then ([generation_stopped], conversation, i)
    else
      match Conversation.get_messages conversation with
      | [] => ([error_occurred "Nessun messaggio da inviare"], conversation, i)
      | _ :: _ =>
          match chat_stream max_retries server stop on_chunk
                  (mkAcc "" 0 false []) i with
          | Returned r i => (r, conversation, i)
          | Raised a last i =>
              let (b, i) := is_set stop WorkerExcept i in
              if b then (emitted a ++ [generation_stopped], conversation, i)
              else (emitted a ++
                      [error_occurred
                         ("Errore nella richiesta di chat: " ++ str_exn last)%string],
                    conversation, i)
          | Exhausted a i | Broken a i =>
              let (b, i) := is_set stop Final i in
              if b then (emitted a ++ [generation_stopped], conversation, i)
              else if Py.truthy (full_response a)
                   then (emitted a ++ [message_completed (full_response a)],
                         Conversation.add_message conversation "assistant"
                           (full_response a) now,
                         i)
                   else if stream_started a
                        then (emitted a ++ [message_completed ""], conversation, i)
                        else (emitted a ++
                                [error_occurred "Nessuna risposta ricevuta dal modello"],
                              conversation, i)
          end
      end.

(** The chunks [chat_stream] yields to a consumer that takes them all. *)
Definition collect (c : chunk) (a : list chunk) (i : io)
    : body_result (list chunk) unit :=
  Continue (a ++ [c]) i.

Definition chat_stream_chunks (i : io) : for_result (list chunk) unit :=
  chat_stream max_retries server stop collect [] i.

End Handler.

Definition is_error (s : signal) : bool :=
  match s with error_occurred _ => true | _ => false end.
Definition is_completed (s : signal) : bool :=
  match s with message_completed _ => true | _ => false end.


Section LoadModels.

Variable max_retries : Z.
Variable probe : get_reply.          (* the reply to the GET of the test *)
Variable server : Z -> get_reply.    (* the replies to the GETs of [get_models] *)
Variable jitter : Z -> Q.
Variable str_exn : option exn -> string.


End LoadModels.

End Worker.

(** ** ConnectionMonitor: the periodic connection test *)

Module ConnectionMonitor.

Record monitor := mkMonitor {
  last_status : option bool;
  changes : list bool;       (* the values emitted with [connection_changed] *)
  waits : list Z             (* the arguments of [msleep], in order *)
}.

Definition check_interval : Z := 30.

Definition start : monitor := mkMonitor None [] [].

(** [current_status != self.last_status] *)
Definition differs (current_status : bool) (last_status : option bool) : bool :=
  match last_status with
  | None => true
  | Some b => negb (Bool.eqb current_status b)
  end.

(** One round of the loop of [run]; [current_status] is what
    [test_connection] returns, which raises nothing, so the [except]
    clause stays unused. *)
Definition round (m : monitor) (current_status : bool) : monitor :=
  let m :=
    if differs current_status (last_status m)
    then mkMonitor (Some current_status) (changes m ++ [current_status])
                   (waits m)
    else m in
  mkMonitor (last_status m) (changes m) (waits m ++ [check_interval * 1000]).

(** [run], for the rounds done before the interruption is requested. *)
Definition run (polls : list bool) : monitor := fold_left round polls start.

End ConnectionMonitor.

(** ** FileManager: the per-project file store, as far as retrieval reads it *)

Module FileManager.

(** A row of [files] joined with its row of [file_content]; a file without
    content has [None] in both content columns. *)
Record file_row := mkRow {
  row_id : Z;
  row_project : string;
  row_filename : string;
  row_created_at : Z;
  row_content : option string;
  row_processed_content : option string
}.

Definition database := list file_row.

Record search_result := mkResult {
  file_id : Z;
  filename : string;
  snippet : string
}.

Record file_info := mkInfo {
  id : Z;
  info_filename : string
}.

Definition contains (hay needle : string) : bool :=
  match Py.find_from needle hay 0 with
  | Some _ => true
  | None => false
  end.

(** [x or ""] and SQL's [COALESCE(x, '')] *)
Definition or_empty (x : option string) : string :=
  match x with
  | Some s => s
  | None => EmptyString
  end.

(** [LOWER(column) LIKE '%' || query.lower() || '%'], the query read as plain
    text. *)
Definition like (column query : string) : bool :=
  contains (Py.lower column) (Py.lower query).

Definition in_project (project_id : string) (r : file_row) : bool :=
  if Py.truthy project_id then (row_project r =? project_id)%string else true.

Definition matches (query : string) (r : file_row) : bool :=
  like (row_filename r) query
  || like (or_empty (row_processed_content r)) query
  || like (or_empty (row_content r)) query.

(** [ORDER BY CASE WHEN LOWER(f.filename) LIKE ? THEN 1 ELSE 2 END,
    f.created_at DESC] *)
Definition rank (query : string) (r : file_row) : Z :=
  if like (row_filename r) query then 1 else 2.

Definition search_order (query : string) (r1 r2 : file_row) : bool :=
  (rank query r1 <? rank query r2)
  || ((rank query r1 =? rank query r2)
      && (row_created_at r2 <=? row_created_at r1)).

(** The snippet [search_in_files] attaches to a row. *)
Definition row_snippet (query : string) (r : file_row) : string :=
  let content := Py.lower (or_empty (row_processed_content r)) in
  let query_lower := Py.lower query in
  if contains content query_lower then
    let index := Py.find content query_lower in
    let start := Z.max 0 (index - 100) in
    let end_ := Z.min (Py.slen content) (index + 200) in
    let snippet := Py.str_slice start end_ content in
    let snippet := if start >? 0 then ("..." ++ snippet)%string else snippet in
    if end_ <? Py.slen content then (snippet ++ "...")%string else snippet
  else if Py.truthy content then
    (if Py.slen content >? 300
     then (Py.str_slice_to 300 content ++ "...")%string else content)
  else EmptyString.

Definition search_in_files (db : database) (query project_id : string)
    (limit : Z) : list search_result :=
  if negb (Py.truthy query) || negb (Py.truthy (Py.strip query)) then []
  else
    let rows :=
      firstn (Z.to_nat limit)
        (Py.sort_by (search_order query)
           (filter (fun r => in_project project_id r && matches query r) db)) in
    map (fun r => mkResult (row_id r) (row_filename r) (row_snippet query r)) rows.

(** [ORDER BY created_at DESC] *)
Definition get_files (db : database) (project_id : string) : list file_info :=
  map (fun r => mkInfo (row_id r) (row_filename r))
    (Py.sort_by (fun r1 r2 => row_created_at r2 <=? row_created_at r1)
       (filter (in_project project_id) db)).

Definition get_file_content (db : database) (file_id : Z) : option string :=
  match filter (fun r => row_id r =? file_id) db with
  | r :: _ => row_content r
  | [] => None
  end.




End FileManager.

(** ** KnowledgeBase: the context block and the snippet *)

Module KnowledgeBase.

Import FileManager.

(** The value of [best_index] when the search of [_extract_relevant_snippet]
    is over: the place of the whole query, else of the first query word
    that occurs, else -1. *)
Fixpoint first_word_index (content_lower : string) (query_words : list string)
    : Z :=
  match query_words with
  | [] => -1
  | word :: query_words' =>
      let index := Py.find content_lower word in
      if negb (index =? -1) then index
      else first_word_index content_lower query_words'
  end.

Definition best_index (content query : string) : Z :=
  let query_lower := Py.lower query in
  let content_lower := Py.lower content in
  let query_words :=
    map (fun w => Py.lower (Py.strip w))
      (filter (fun w => Py.slen (Py.strip w) >? 2) (Py.split query)) in
  let index := Py.find content_lower query_lower in
  if negb (index =? -1) then index
  else first_word_index content_lower query_words.

Definition _extract_relevant_snippet (content query : string) (max_length : Z)
    : string :=
  if max_length <=? 0 then EmptyString
  else
    let best_index := best_index content query in
    if best_index =? -1 then Py.str_slice_to max_length content
    else
      let start := Z.max 0 (best_index - max_length / 3) in
      let end_ := Z.min (Py.slen content) (start + max_length) in
      let snippet := Py.str_slice start end_ content in
      let snippet := if start >? 0 then ("..." ++ snippet)%string else snippet in
      if end_ <? Py.slen content then (snippet ++ "...")%string else snippet.

Definition header : string :=
  ("CONTESTO DALLA KNOWLEDGE BASE:" ++ Py.nl ++ Py.nl)%string.

(** [content and len(content.strip()) > 10] *)
Definition usable (content : option string) : bool :=
  match content with
  | Some c => Py.truthy c && (Py.slen (Py.strip c) >? 10)
  | None => false
  end.

Section Context.

Variable db : database.
Variable query project_id : string.
Variable max_context_length : Z.

(** [for term in [query] + search_terms], stopping at the first hit. *)
Fixpoint search_terms_loop (terms : list string) : list search_result :=
  match terms with
  | [] => []
  | term :: terms' =>
      if Py.slen term >? 2 then
        match search_in_files db (Py.strip term) project_id 3 with
        | [] => search_terms_loop terms'
        | results => results
        end
      else search_terms_loop terms'
  end.

(** Duplicates removed, the first occurrence of each [file_id] kept. *)
Fixpoint unique (seen_ids : list Z) (results : list search_result)
    : list search_result :=
  match results with
  | [] => []
  | result :: results' =>
      if existsb (Z.eqb (file_id result)) seen_ids then unique seen_ids results'
      else result :: unique (file_id result :: seen_ids) results'
  end.

(** When the search finds nothing: the first two files with usable content. *)
Definition fallback : list search_result :=
  flat_map
    (fun file_info =>
       let content := get_file_content db (id file_info) in
       if usable content
       then [mkResult (id file_info) (info_filename file_info)
               (let c := or_empty content in
                if Py.slen c >? 200
                then (Py.str_slice_to 200 c ++ "...")%string else c)]
       else [])
    (Py.slice_to 2 (get_files db project_id)).

(** [for result in unique_results[:3]], from [context] of length
    [current_length]. *)
Fixpoint build (results : list search_result) (context : string)
    (current_length : Z) : string :=
  match results with
  | [] => context
  | result :: results' =>
      if current_length >=? max_context_length then context
      else
        let file_content := get_file_content db (file_id result) in
        if usable file_content then
          let file_header :=
            ("=== FILE: " ++ filename result ++ " ===" ++ Py.nl)%string in
          let content_snippet :=
            _extract_relevant_snippet (or_empty file_content) query
              (Z.min 800
                 (max_context_length - current_length - Py.slen file_header - 10)) in
          let addition := (file_header ++ content_snippet ++ Py.nl ++ Py.nl)%string in
          if current_length + Py.slen addition <=? max_context_length
          then build results' (context ++ addition)%string
                 (current_length + Py.slen addition)
          else
            let remaining := max_context_length - current_length in
            if remaining >? 100
            then (context ++ Py.str_slice_to remaining addition
                  ++ "..." ++ Py.nl ++ Py.nl)%string
            else context
        else build results' context current_length
  end.

Definition context_for (unique_results : list search_result) : string :=
  match unique_results with
  | [] => EmptyString
  | _ => Py.strip (build (Py.slice_to 3 unique_results) header (Py.slen header))
  end.

Definition candidates : list search_result :=
  match unique [] (search_terms_loop (query :: Py.slice_to 3 (Py.split query))) with
  | [] => fallback
  | unique_results => unique_results
  end.

End Context.

(** [get_context_for_query]; [projects] gives the database kept in a
    project's directory, [None] when the directory does not exist. *)
Definition get_context_for_query (projects : string -> option database)
    (query project_id : string) (max_context_length : Z) : string :=
  match projects project_id with
  | None => EmptyString
  | Some db =>
      context_for db query max_context_length
        (candidates db query project_id)
  end.

End KnowledgeBase.

(** ** Notions used to state the properties *)

Module ConversationSpec.

Import Conversation.

(** No system message after the first position. *)
Definition tail_clean (msgs : list message) : bool :=
  forallb not_system (tl msgs).

End ConversationSpec.

Module RequestSpec.

Import Request.


End RequestSpec.

Module WorkerSpec.

Import Request Worker.

Definition is_delta (s : signal) : bool :=
  match s with message_chunk_received _ => true | _ => false end.

(** No read of the stop event by the worker itself has found it set. *)
Definition quiet (l : list (site * bool)) : Prop :=
  ~ In (BeforeStart, true) l /\ ~ In (OnDelta, true) l.

(** Content deltas, then the "stopped" signal, and nothing else: neither
    "error" nor "completed". *)
Definition stopped_after_deltas (sigs : list signal) : Prop :=
  exists deltas, sigs = deltas ++ [generation_stopped] /\
                 forallb is_delta deltas = true.

Definition undisturbed (r : for_result acc (list signal)) : Prop :=
  match r with
  | Returned sigs _ => stopped_after_deltas sigs
  | Exhausted a i | Broken a i | Raised a _ i =>
      quiet (log i) /\ forallb is_delta (emitted a) = true
  end.

End WorkerSpec.

(** ** Concrete caches, servers and projects *)

Module Inputs.

Import Conversation Request Worker FileManager.

Open Scope string_scope.

(** Ten user messages, which fill a cache of capacity 10. *)
Definition ten_appends : list op :=
  map (fun n => Append "user" "hello" (Z.of_nat n)) (seq 0 10).

(** One system message and four of the five messages of the trimming
    example with capacity 3. *)
Definition system_and_four : list op :=
  [SetSystem "Be brief." 0; Append "user" "1" 1; Append "assistant" "2" 2;
   Append "user" "3" 3; Append "assistant" "4" 4].



Definition half (attempt : Z) : Q := 1 # 2.

(** The chat stream of two lines, [{message:{content:"a"}, done:false}] and
    [{message:{content:"b"}, done:true}], with a line after them. *)
Definition two_lines (attempt : Z) : post_reply :=
  PostStatus 200
    [Json (mkChunk (Some "a") false); Json (mkChunk (Some "b") true);
     Json (mkChunk (Some "c") false)]
    None.

(** The stop event is set from its [n]-th read on. *)
Definition stop_from (n : nat) (t : nat) : bool := (n <=? t)%nat.

Definition never (t : nat) : bool := false.

Definition str_exn (last : option exn) : string := "error".

Definition one_question : ConversationManager :=
  add_message (new 100) "user" "hello" 0.

Definition busy_worker : OllamaWorker :=
  mkWorker None (Some "llama3") false true true one_question.

Definition faq : string :=
  "Our refund policy: items can be returned within 30 days of delivery for a full refund. Opened software, gift cards and perishable goods are excluded. To start a return, write to support with your order number; refunds are issued to the original payment method within five working days after we receive the parcel. Return shipping is free.".



(** A project with one file. *)
Definition faq_only : database :=
  [mkRow 1 "proj1" "faq.txt" 20 (Some faq) (Some faq)].


Definition only_proj1 (db : database) (project_id : string) : option database :=
  if (project_id =? "proj1")%string then Some db else None.

(** A match in the middle of a text longer than the window. *)
Definition haystack : string :=
  "aaaaaaaaaaaaaaaaaaaaaaaaaaaaaaaaXbbbbbbbbbbbbbbbbbbbbbbbbbbbbbbbb".

End Inputs.

(** ** Further notions and inputs *)

Module MoreSpec.

Import Request Worker.

(** The io a loop over [chat_stream] ends with. *)
Definition io_of {A R} (r : for_result A R) : io :=
  match r with
  | Exhausted _ i | Broken _ i | Returned _ i | Raised _ _ i => i
  end.

(** The chunks among the lines of a response: the empty and the malformed
    lines left out. *)
Definition chunks_of (lines : list line) : list chunk :=
  flat_map (fun l => match l with Json c => [c] | _ => [] end) lines.

(** The signals that end a send-message task. *)
Definition is_terminal (s : signal) : bool :=
  match s with
  | generation_stopped | message_completed _ | error_occurred _ => true
  | _ => false
  end.

(** The text of the content deltas among the signals, in order. *)
Fixpoint delta_text (sigs : list signal) : string :=
  match sigs with
  | [] => EmptyString
  | message_chunk_received content :: sigs' =>
      (content ++ delta_text sigs')%string
  | _ :: sigs' => delta_text sigs'
  end.

(** Every read of the stop event in [reads] found it unset. *)
Definition all_unset (reads : list (site * bool)) : Prop :=
  Forall (fun e => snd e = false) reads.

(** The last read in [reads] found the stop event set, and no other did. *)
Definition set_at_last (reads : list (site * bool)) : Prop :=
  exists front s, reads = front ++ [(s, true)] /\ all_unset front.

(** How a run of [chat_stream] that made the reads [reads] may end: it
    raises only if no read found the stop event set, and a read that found
    it set is the last one and ends the run in the state STOPPED. *)
Definition stops_cleanly {A R} (reads : list (site * bool))
    (r : for_result A R) : Prop :=
  match r with
  | Exhausted _ i =>
      all_unset reads \/ (set_at_last reads /\ state i = STOPPED)
  | Raised _ _ _ => all_unset reads
  | Broken _ _ | Returned _ _ => False
  end.

(** What holds of the result of a loop over the generator when [P] holds
    of the loop's variables and [Q] of what the body returns. *)
Definition kept {A R} (P : A -> Prop) (Q : R -> Prop) (r : for_result A R)
    : Prop :=
  match r with
  | Exhausted a _ | Broken a _ | Raised a _ _ => P a
  | Returned r _ => Q r
  end.

(** [r] ends a run that started from the log [l0]. *)
Definition ends_from {A R} (l0 : list (site * bool)) (r : for_result A R)
    : Prop :=
  exists reads, log (io_of r) = l0 ++ reads /\ stops_cleanly reads r.

(** A run that started with [p0] POSTs and [s0] sleeps behind it has
    issued at most [p] more POSTs and slept at most [s] more times, and
    never more often than it has posted. *)
Definition within {A R} (p0 s0 p s : nat) (r : for_result A R) : Prop :=
  exists p' s',
    posts (io_of r) = (p0 + p')%nat /\
    List.length (sleeps (io_of r)) = (s0 + s')%nat /\
    (p' <= p)%nat /\ (s' <= s)%nat /\ (s' <= p')%nat.

(** No two neighbours in [l] are equal. *)
Fixpoint alternating (l : list bool) : bool :=
  match l with
  | a :: (b :: _) as l' => negb (Bool.eqb a b) && alternating l'
  | _ => true
  end.

(** The last element of a list, if there is one. *)
Definition last_of {A} (l : list A) : option A := last (map Some l) None.

(** The first line of every context block. *)
Definition heading : string := "CONTESTO DALLA KNOWLEDGE BASE:".




End MoreSpec.

Module MoreInputs.

Import Conversation Request Worker FileManager.

Open Scope string_scope.

(** A server that answers the third GET. *)
Definition third_time_lucky (attempt : Z) : get_reply :=
  if (attempt <? 2)%Z then GetRaises Timeout
  else GetStatus 200 (Some ["mistral"; "llama3"; "gemma"]).

(** A response with an empty line and a malformed line between two chunks. *)
Definition noisy (attempt : Z) : post_reply :=
  PostStatus 200
    [Json (mkChunk (Some "a") false); EmptyLine; BadJson;
     Json (mkChunk (Some "b") true)]
    None.

End MoreInputs.
(** * Facts *)

(** ** Slices *)

Module PyFacts.

Import Py.

Lemma slice_from_neg_length {A} (k : Z) (l : list A) :
  0 < k -> len (slice_from (- k) l) = Z.min k (len l).
Proof.
  intros Hk. unfold slice_from, clamp, len.
  destruct (Z.ltb_spec (- k) 0) as [_|H]; [|lia].
  rewrite length_skipn. lia.
Qed.

Lemma slice_from_zero {A} (l : list A) : slice_from (- 0) l = l.
Proof.
  unfold slice_from, clamp. simpl.
  replace (Z.to_nat (Z.min 0 (len l))) with 0%nat by (unfold len; lia).
  reflexivity.
Qed.

Lemma slice_from_incl {A} (i : Z) (l : list A) x :
  In x (slice_from i l) -> In x l.
Proof.
  unfold slice_from. intros H.
  rewrite <- (firstn_skipn (Z.to_nat (clamp (len l) i)) l).
  apply in_or_app. now right.
Qed.


Lemma len_app {A} (l1 l2 : list A) : len (l1 ++ l2) = len l1 + len l2.
Proof. unfold len. rewrite length_app. lia. Qed.

Lemma len_nonneg {A} (l : list A) : 0 <= len l.
Proof. unfold len. lia. Qed.

End PyFacts.

(** ** The conversation cache *)

Module ConversationFacts.

Import Py PyFacts Conversation ConversationSpec.

Lemma filter_system_idem (l : list message) :
  filter is_system (filter is_system l) = filter is_system l.
Proof.
  induction l as [|m l IH]; simpl; [reflexivity|].
  destruct (is_system m) eqn:E; simpl; [rewrite E, IH|]; auto.
Qed.

Lemma no_system_filter (l : list message) :
  forallb not_system l = true -> filter is_system l = [].
Proof.
  induction l as [|m l IH]; simpl; [reflexivity|].
  unfold not_system at 1. intros H. apply andb_prop in H as [Hm Hl].
  destruct (is_system m); [discriminate|auto].
Qed.

Lemma filter_no_system (l : list message) :
  filter is_system l = [] -> forallb not_system l = true.
Proof.
  induction l as [|m l IH]; simpl; [reflexivity|].
  unfold not_system at 1.
  destruct (is_system m); [discriminate|auto].
Qed.

Lemma others_no_system (l : list message) :
  forallb not_system (filter not_system l) = true.
Proof.
  apply forallb_forall. intros m H. now apply filter_In in H.
Qed.

Lemma forallb_slice_from {A} (f : A -> bool) i (l : list A) :
  forallb f l = true -> forallb f (slice_from i l) = true.
Proof.
  rewrite !forallb_forall. intros H x Hx. eauto using slice_from_incl.
Qed.

Lemma run_snoc cm ops o : run cm (ops ++ [o]) = apply (run cm ops) o.
Proof. unfold run. now rewrite fold_left_app. Qed.

Lemma max_messages_trim cm : max_messages (_trim_messages cm) = max_messages cm.
Proof.
  unfold _trim_messages.
  destruct (_ <=? _); [reflexivity|].
  destruct (filter is_system (messages cm)); reflexivity.
Qed.

Lemma max_messages_apply cm o : max_messages (apply cm o) = max_messages cm.
Proof.
  destruct o; simpl.
  - unfold add_message. now rewrite max_messages_trim.
  - unfold set_system_message. now destruct (truthy _).
Qed.

Lemma max_messages_run ops : forall cm, max_messages (run cm ops) = max_messages cm.
Proof.
  induction ops as [|o ops IH]; intros cm; simpl; [reflexivity|].
  unfold run in *. simpl. now rewrite IH, max_messages_apply.
Qed.

(** A trim that leaves fewer system messages than the capacity leaves a
    cache within capacity. *)
Lemma trim_within_capacity cm :
  system_count (_trim_messages cm) < max_messages cm ->
  get_message_count (_trim_messages cm) <= max_messages cm.
Proof.
  unfold _trim_messages, system_count, get_message_count.
  destruct (Z.leb_spec (len (messages cm)) (max_messages cm)) as [Hle|Hgt];
    [auto|].
  destruct (filter is_system (messages cm)) as [|s ss] eqn:Hsys; simpl messages.
  - intros Hc.
    assert (0 < max_messages cm) by (pose proof (len_nonneg (filter is_system
      (slice_from (- max_messages cm) (messages cm)))); lia).
    rewrite slice_from_neg_length by assumption. lia.
  - rewrite !app_comm_cons, <- Hsys. intros Hc.
    rewrite filter_app, filter_system_idem, len_app in Hc.
    rewrite (no_system_filter (slice_from _ _)) in Hc
      by (apply forallb_slice_from, others_no_system).
    change (len (@nil message)) with 0 in Hc.
    rewrite len_app, slice_from_neg_length by lia. lia.
Qed.

Lemma add_message_below_capacity cm r c t :
  get_message_count cm < max_messages cm ->
  messages (add_message cm r c t) = messages cm ++ [mkMessage r c t].
Proof.
  unfold get_message_count, add_message, _trim_messages. intros H.
  simpl messages. simpl max_messages. rewrite len_app.
  change (len [mkMessage r c t]) with 1.
  destruct (Z.leb_spec (len (messages cm) + 1) (max_messages cm));
    [reflexivity|lia].
Qed.

Lemma set_system_message_count cm c t :
  get_message_count (set_system_message cm c t) <= get_message_count cm + 1.
Proof.
  unfold set_system_message, get_message_count, len.
  pose proof (filter_length_le not_system (messages cm)).
  destruct (truthy _); simpl; lia.
Qed.

Lemma tail_clean_systems msgs :
  tail_clean msgs = true ->
  filter is_system msgs = [] \/
  exists s rest, msgs = s :: rest /\ filter is_system msgs = [s].
Proof.
  destruct msgs as [|h t]; simpl; [auto|].
  unfold tail_clean. simpl. intros H.
  rewrite (no_system_filter t H).
  destruct (is_system h); eauto.
Qed.

Lemma trim_tail_clean cm :
  tail_clean (messages cm) = true ->
  tail_clean (messages (_trim_messages cm)) = true.
Proof.
  intros H. unfold _trim_messages.
  destruct (_ <=? _); [assumption|].
  destruct (tail_clean_systems _ H) as [E|(s & rest & _ & E)]; rewrite E.
  - simpl messages. unfold tail_clean.
    apply forallb_forall. intros m Hm.
    assert (Hall : forallb not_system (messages cm) = true)
      by now apply filter_no_system.
    rewrite forallb_forall in Hall. apply Hall.
    apply (slice_from_incl (- max_messages cm)).
    destruct (slice_from _ _) as [|x l]; simpl in *; [contradiction|auto].
  - simpl messages. unfold tail_clean. simpl tl.
    apply forallb_slice_from, others_no_system.
Qed.

Lemma apply_tail_clean cm o :
  appends_no_system o ->
  tail_clean (messages cm) = true ->
  tail_clean (messages (apply cm o)) = true.
Proof.
  destruct o as [r c t|c t]; simpl; intros Hr H.
  - unfold add_message. apply trim_tail_clean. simpl messages.
    unfold tail_clean in *.
    assert (Hm : not_system (mkMessage r c t) = true).
    { unfold not_system, is_system. simpl.
      destruct (String.eqb_spec r "system"); [contradiction|reflexivity]. }
    destruct (messages cm) as [|h l]; simpl in *; [reflexivity|].
    rewrite forallb_app, H. simpl. now rewrite Hm.
  - unfold set_system_message.
    destruct (truthy _); simpl messages; unfold tail_clean.
    + simpl. apply others_no_system.
    + pose proof (others_no_system (messages cm)) as Ho.
      destruct (filter not_system (messages cm)); simpl in *; [reflexivity|].
      now apply andb_prop in Ho.
Qed.

Lemma run_tail_clean ops : forall cm,
  Forall appends_no_system ops ->
  tail_clean (messages cm) = true ->
  tail_clean (messages (run cm ops)) = true.
Proof.
  induction ops as [|o ops IH]; intros cm Hops H; [assumption|].
  inversion Hops; subst. unfold run in *. simpl.
  apply IH; [assumption|]. now apply apply_tail_clean.
Qed.

Lemma tail_clean_pinned msgs :
  tail_clean msgs = true -> system_pinned msgs.
Proof.
  intros H. split.
  - destruct (tail_clean_systems _ H) as [E|(s & rest & _ & E)];
      rewrite E; unfold len; simpl; lia.
  - intros [|i] m Hn Hs; [reflexivity|exfalso].
    destruct msgs as [|h t]; simpl in Hn; [discriminate|].
    unfold tail_clean in H. simpl in H. rewrite forallb_forall in H.
    apply nth_error_In in Hn. apply H in Hn.
    unfold not_system in Hn. rewrite Hs in Hn. discriminate.
Qed.

End ConversationFacts.

(** ** The retry policy and the backoff *)

Module RequestFacts.

Import Request RequestSpec.

(** The response attached to an [HTTPError] is one for which
    [raise_for_status] raised, so it is falsy and the 5xx test never holds. *)
Lemma response_is_5xx_false (response : option Z) :
  response_is_5xx response = false.
Proof.
  destruct response as [status|]; [|reflexivity].
  unfold response_is_5xx, response_truthy, status_raises.
  destruct (Z.leb_spec 400 status), (Z.ltb_spec status 600),
           (Z.leb_spec 500 status); simpl; try reflexivity; lia.
Qed.

(** What [_should_retry] decides. *)
Lemma should_retry_iff (max_retries : Z) (e : exn) (attempt : Z) :
  _should_retry max_retries e attempt = true <->
  attempt < max_retries /\ (e = ConnectionError \/ e = Timeout).
Proof.
  unfold _should_retry.
  rewrite Z.geb_leb.
  destruct (Z.leb_spec max_retries attempt) as [Hge|Hlt].
  - split; [discriminate|lia].
  - destruct e as [| |response|]; try rewrite response_is_5xx_false;
      (split;
       [ intros H; first [discriminate | split; [lia|auto]]
       | intros [_ [H|H]]; first [discriminate | reflexivity] ]).
Qed.

Lemma backoff_capped (attempt : Z) (u : Q) :
  (_exponential_backoff attempt u <= 30)%Q.
Proof. unfold _exponential_backoff. apply Q.le_min_r. Qed.





Section AlwaysFailing.

Variable max_retries : Z.
Variable server : Z -> get_reply.
Variable jitter : Z -> Q.

(** Every attempt ends in a connection error or a timeout. *)
Hypothesis always_fails :
  forall attempt, get_once (server attempt) = inr ConnectionError \/
                  get_once (server attempt) = inr Timeout.



End AlwaysFailing.

End RequestFacts.

(** ** The worker *)

Module WorkerFacts.

Import Request Worker WorkerSpec.

Section Handler.

Variable max_retries : Z.
Variable server : Z -> post_reply.
Variable stop : nat -> bool.
Variable str_exn : option exn -> string.

Lemma quiet_snoc l s b :
  quiet l -> (b = true -> s <> BeforeStart /\ s <> OnDelta) ->
  quiet (l ++ [(s, b)]).
Proof.
  intros [H1 H2] Hs. split; intros H; apply in_app_or in H as [H|[H|[]]];
    try contradiction; inversion H; subst; destruct Hs; auto.
Qed.

Lemma quiet_final (i : io) b :
  quiet (log i) -> quiet (log i ++ [(Final, b)]).
Proof. intros H. apply quiet_snoc; auto. split; discriminate. Qed.

Lemma quiet_except (i : io) b :
  quiet (log i) -> quiet (log i ++ [(WorkerExcept, b)]).
Proof. intros H. apply quiet_snoc; auto. split; discriminate. Qed.

Lemma after_retries_undisturbed last a i :
  quiet (log i) -> forallb is_delta (emitted a) = true ->
  undisturbed (after_retries stop last a i).
Proof.
  intros Hq Ha. unfold after_retries, is_set.
  destruct (stop _); simpl; (split; [|assumption]);
    apply quiet_snoc; auto; (split; discriminate).
Qed.

Lemma on_failure_undisturbed attempt e again a i :
  (forall last a i, quiet (log i) -> forallb is_delta (emitted a) = true ->
                    undisturbed (again last a i)) ->
  quiet (log i) -> forallb is_delta (emitted a) = true ->
  undisturbed (on_failure max_retries stop attempt e again a i).
Proof.
  intros Hagain Hq Ha. unfold on_failure, is_set. simpl log.
  assert (Hq' : forall b, quiet (log i ++ [(OnFailure, b)]))
    by (intros b; apply quiet_snoc; auto; split; discriminate).
  destruct (stop _).
  - simpl. auto.
  - destruct (_should_retry _ _ _).
    + apply Hagain; simpl; auto.
    + apply after_retries_undisturbed; simpl; auto.
Qed.

Lemma on_chunk_undisturbed c a i :
  quiet (log i) -> forallb is_delta (emitted a) = true ->
  match on_chunk stop c a i with
  | Continue a' i' | Break a' i' =>
      quiet (log i') /\ forallb is_delta (emitted a') = true
  | Return sigs _ => stopped_after_deltas sigs
  end.
Proof.
  intros Hq Ha. unfold on_chunk, is_set. simpl.
  destruct (stop _) eqn:Hs.
  - exists (emitted a). auto.
  - assert (Hq' : quiet (log i ++ [(OnDelta, false)]))
      by (apply quiet_snoc; auto; discriminate).
    destruct (message_content c) as [content|];
      [destruct (Py.truthy content)|]; destruct (done c); simpl;
      rewrite ?forallb_app, ?Ha; auto.
Qed.

Lemma stream_lines_undisturbed at_end ls :
  (forall a i, quiet (log i) -> forallb is_delta (emitted a) = true ->
               undisturbed (at_end a i)) ->
  forall a i, quiet (log i) -> forallb is_delta (emitted a) = true ->
              undisturbed (stream_lines stop (on_chunk stop) at_end ls a i).
Proof.
  intros Hend. induction ls as [|l ls IH]; intros a i Hq Ha; simpl; [auto|].
  unfold is_set. simpl log.
  assert (Hq' : forall b, quiet (log i ++ [(OnLine, b)]))
    by (intros b; apply quiet_snoc; auto; split; discriminate).
  destruct (stop _); [simpl; auto|].
  destruct l as [| |c]; try (apply IH; simpl; auto).
  match goal with |- context [on_chunk stop c a ?j] =>
    pose proof (on_chunk_undisturbed c a j (Hq' false) Ha) as Hc;
    destruct (on_chunk stop c a j) as [a' i'|a' i'|sigs i']
  end; simpl; auto.
  destruct Hc. now apply IH.
Qed.

Lemma attempts_undisturbed n :
  forall attempt last a i,
    quiet (log i) -> forallb is_delta (emitted a) = true ->
    undisturbed
      (attempts max_retries server stop (on_chunk stop) n attempt last a i).
Proof.
  induction n as [|n IH]; intros attempt last a i Hq Ha; simpl.
  - now apply after_retries_undisturbed.
  - unfold is_set. simpl log.
    assert (Hq' : forall b, quiet (log i ++ [(PreConnect, b)]))
      by (intros b; apply quiet_snoc; auto; split; discriminate).
    destruct (stop _); [simpl; auto|].
    destruct (server attempt) as [e|status lines ending].
    + apply on_failure_undisturbed; simpl; auto.
    + destruct (status_raises status).
      * apply on_failure_undisturbed; simpl; auto.
      * apply stream_lines_undisturbed; simpl; auto.
        intros a' i' Hq'' Ha'. destruct ending as [e|]; simpl; auto.
        apply on_failure_undisturbed; auto.
Qed.

End Handler.

End WorkerFacts.

(** ** Strings *)

Module StringFacts.

Import Py.

Lemma slen_nonneg s : 0 <= slen s.
Proof. unfold slen. lia. Qed.

Lemma length_append (s1 s2 : string) :
  String.length (s1 ++ s2) = (String.length s1 + String.length s2)%nat.
Proof. induction s1 as [|c s1 IH]; simpl; [reflexivity|]. now rewrite IH. Qed.

Lemma slen_append s1 s2 : slen (s1 ++ s2) = slen s1 + slen s2.
Proof. unfold slen. rewrite length_append. lia. Qed.

Lemma append_assoc (s1 s2 s3 : string) :
  (s1 ++ (s2 ++ s3) = (s1 ++ s2) ++ s3)%string.
Proof. induction s1 as [|c s1 IH]; simpl; [reflexivity|]. now rewrite IH. Qed.

Lemma length_str_firstn n s :
  String.length (str_firstn n s) = Nat.min n (String.length s).
Proof.
  revert s. induction n as [|n IH]; intros [|c s]; simpl; auto.
Qed.

Lemma length_str_skipn n s :
  String.length (str_skipn n s) = (String.length s - n)%nat.
Proof.
  revert s. induction n as [|n IH]; intros [|c s]; simpl; auto.
Qed.

Lemma slen_slice_to j s : 0 <= j -> slen (str_slice_to j s) = Z.min j (slen s).
Proof.
  intros Hj. unfold str_slice_to, clamp, slen.
  rewrite length_str_firstn.
  destruct (Z.ltb_spec j 0); lia.
Qed.

(** The window [content[start:end]] of the snippet: at most [max_length]
    characters. *)
Lemma slen_window content start max_length :
  0 <= start -> 0 <= max_length ->
  slen (str_slice start (Z.min (slen content) (start + max_length)) content)
  <= max_length.
Proof.
  intros Hs Hm. unfold str_slice, clamp.
  pose proof (slen_nonneg content).
  destruct (Z.ltb_spec start 0); [lia|].
  destruct (Z.ltb_spec (Z.min (slen content) (start + max_length)) 0); [lia|].
  unfold slen in *. rewrite length_str_firstn, length_str_skipn. lia.
Qed.









End StringFacts.

(** ** Retrieval *)

Module KnowledgeFacts.

Import Py PyFacts StringFacts FileManager KnowledgeBase.


Lemma snippet_bound content query max_length :
  0 < max_length ->
  slen (_extract_relevant_snippet content query max_length) <= max_length + 6.
Proof.
  intros H. unfold _extract_relevant_snippet.
  destruct (Z.leb_spec max_length 0); [lia|].
  destruct (best_index content query =? -1).
  - rewrite slen_slice_to by lia. lia.
  - set (start := Z.max 0 (best_index content query - max_length / 3)).
    pose proof (slen_window content start max_length ltac:(lia) ltac:(lia)).
    destruct (start >? 0), (_ <? slen content);
      rewrite ?slen_append; change (slen "...") with 3; lia.
Qed.

Lemma snippet_no_match content query max_length :
  0 < max_length ->
  best_index content query = -1 ->
  _extract_relevant_snippet content query max_length
    = str_slice_to max_length content /\
  slen (_extract_relevant_snippet content query max_length) <= max_length.
Proof.
  intros H Hb. unfold _extract_relevant_snippet.
  destruct (Z.leb_spec max_length 0); [lia|].
  rewrite Hb. simpl. split; [reflexivity|].
  rewrite slen_slice_to by lia. lia.
Qed.

Lemma slen_header : slen header = 32.
Proof. reflexivity. Qed.



Section Build.

Variable db : database.
Variable query : string.
Variable max_context_length : Z.





End Build.

(** Every candidate is a file of the database. *)






Lemma In_unique seen results result :
  In result (unique seen results) -> In result results.
Proof.
  revert seen. induction results as [|r rs IH]; intros seen; simpl; [auto|].
  destruct (existsb _ seen); simpl; [eauto|].
  intros [H|H]; eauto.
Qed.



End KnowledgeFacts.

(** * The properties of the specification *)

(** ** Conversation cache *)

(** What the trimming example of the specification gives: capacity 3, one
    system message and five others keep the system message and the two
    most recent others. *)
Example trim_capacity_three :
  map Conversation.content
    (Conversation.messages
       (Conversation.run (Conversation.new 3)
          (Inputs.system_and_four ++ [Conversation.Append "user" "5" 5])))
  = ["Be brief."; "4"; "5"]%string.
Proof. reflexivity. Qed.

(** When the system messages alone fill the capacity, [keep_count] is 0 and
    the slice [other_messages[-0:]] keeps every other message. *)
Example keep_count_zero_keeps_everything :
  map Conversation.content
    (Conversation.messages
       (Conversation.run (Conversation.new 1)
          [Conversation.SetSystem "Be brief." 0;
           Conversation.Append "user" "1" 1;
           Conversation.Append "assistant" "2" 2]))
  = ["Be brief."; "1"; "2"]%string.
Proof. reflexivity. Qed.

(** C1, as stated, fails: [set_system_message] does not trim, so on a cache
    of capacity 10 that holds ten user messages it leaves eleven. *)
Lemma set_system_message_exceeds_capacity :
  ~ Conversation.get_message_count
      (Conversation.run (Conversation.new 10)
         (Inputs.ten_appends ++ [Conversation.SetSystem "Be brief." 10]))
    <= 10.
Proof.
  assert (E : Conversation.get_message_count
                (Conversation.run (Conversation.new 10)
                   (Inputs.ten_appends ++ [Conversation.SetSystem "Be brief." 10]))
              = 11) by reflexivity.
  rewrite E. lia.
Qed.

(** C1 (amended): for every capacity N and every sequence of cache
    operations, after each append the cache holds at most N messages
    provided fewer than N of them are system messages; setting the system
    message does not trim, and after it the cache holds at most N + 1. *)
Theorem cache_within_capacity_after_append :
  forall (N : Z) (ops : list Conversation.op) (r c : string) (t : Z),
    let cm := Conversation.run (Conversation.new N)
                (ops ++ [Conversation.Append r c t]) in
    Conversation.system_count cm < N ->
    Conversation.get_message_count cm <= N /\
    forall c' t',
      Conversation.get_message_count
        (Conversation.set_system_message cm c' t') <= N + 1.
Proof.
  intros N ops r c t cm Hsys.
  assert (Hcm : Conversation.get_message_count cm <= N).
  { subst cm. rewrite ConversationFacts.run_snoc in *. simpl in *.
    unfold Conversation.add_message in *.
    set (cm1 := Conversation.mkCM _ _) in *.
    assert (Hmax : Conversation.max_messages cm1 = N)
      by (unfold cm1; simpl; now rewrite ConversationFacts.max_messages_run).
    rewrite <- Hmax in *.
    now apply ConversationFacts.trim_within_capacity. }
  split; [exact Hcm|].
  intros c' t'.
  pose proof (ConversationFacts.set_system_message_count cm c' t'). lia.
Qed.

Lemma cache_within_capacity_after_append_witness :
  Conversation.system_count
    (Conversation.run (Conversation.new 3)
       (Inputs.system_and_four ++ [Conversation.Append "user" "5" 5])) < 3 /\
  Conversation.get_message_count
    (Conversation.run (Conversation.new 3)
       (Inputs.system_and_four ++ [Conversation.Append "user" "5" 5])) <= 3.
Proof.
  split; [reflexivity|].
  exact (proj1 (cache_within_capacity_after_append 3 Inputs.system_and_four
                  "user" "5" 5 eq_refl)).
Defined.

(** C6, as stated, fails: a message appended with the role "system" goes to
    the end of the cache like any other. *)
Lemma appended_system_message_not_first :
  ~ Conversation.system_pinned
      (Conversation.messages
         (Conversation.run (Conversation.new 10)
            [Conversation.Append "user" "hello" 0;
             Conversation.Append "system" "Be brief." 1])).
Proof.
  intros [_ H].
  specialize (H 1%nat (Conversation.mkMessage "system" "Be brief." 1)
                eq_refl eq_refl).
  discriminate H.
Qed.

(** C6 (amended): after every sequence of cache operations in which no
    message is appended with the role "system" (system messages come from
    set-system-message only), the cache holds at most one system message,
    and a system message present is at index 0. *)
Theorem system_message_pinned :
  forall (N : Z) (ops : list Conversation.op),
    Forall Conversation.appends_no_system ops ->
    Conversation.system_pinned
      (Conversation.messages (Conversation.run (Conversation.new N) ops)).
Proof.
  intros N ops Hops.
  apply ConversationFacts.tail_clean_pinned.
  apply ConversationFacts.run_tail_clean; [assumption|reflexivity].
Qed.

Lemma system_message_pinned_witness :
  Conversation.system_pinned
    (Conversation.messages
       (Conversation.run (Conversation.new 3)
          (Inputs.system_and_four ++ [Conversation.SetSystem "Be kind." 5]))).
Proof.
  apply (system_message_pinned 3).
  repeat constructor; simpl; discriminate.
Defined.

(** ** Request layer *)

(** C2: the code does not do what the claim says.  An [HTTPError] raised
    for a 503 carries a response whose truth value is false, so the test
    for a 5xx status is never reached and the request is not retried. *)
Theorem server_error_503_not_retried :
  Request.get_once (Request.GetStatus 503 None)
    = inr (Request.HTTPError (Some 503)) /\
  Request._should_retry 3 (Request.HTTPError (Some 503)) 0 = false.
Proof. split; reflexivity. Qed.




(** ** Worker *)



(** C5: for the stream whose first two lines decode to
    [{message:{content:"a"}, done:false}] and
    [{message:{content:"b"}, done:true}], whatever follows them, the worker
    (a model selected, a message to send, no stop requested) emits the
    deltas "a" then "b", then "completed" with "ab", adds the one
    assistant message "ab" to the cache, and has taken two lines from one
    response. *)
Theorem two_line_stream_completes :
  forall (max_retries : Z) (server : Z -> Request.post_reply)
         (stop : nat -> bool) (str_exn : option Request.exn -> string)
         (current_model : option string)
         (conversation : Conversation.ConversationManager) (now : Z)
         (status : Z) (rest : list Request.line) (ending : option Request.exn),
    0 <= max_retries ->
    (forall n, stop n = false) ->
    Worker.model_selected current_model = true ->
    Conversation.get_messages conversation <> [] ->
    Request.status_raises status = false ->
    server 0 =
      Request.PostStatus status
        (Request.Json (Request.mkChunk (Some "a"%string) false)
         :: Request.Json (Request.mkChunk (Some "b"%string) true) :: rest)
        ending ->
    exists i',
      Worker._handle_send_message max_retries server stop str_exn
        current_model conversation now =
      ([Worker.message_chunk_received "a"; Worker.message_chunk_received "b";
        Worker.message_completed "ab"],
       Conversation.add_message conversation "assistant" "ab" now, i') /\
      Request.lines_read i' = 2%nat /\ Request.posts i' = 1%nat /\
      (Conversation.get_message_count conversation
         < Conversation.max_messages conversation ->
       Conversation.messages
         (Conversation.add_message conversation "assistant" "ab" now)
       = Conversation.messages conversation
           ++ [Conversation.mkMessage "assistant" "ab" now]).
Proof.
  intros k server stop str_exn model conv now status rest ending
         Hk Hstop Hmodel Hmsgs Hstatus Hserver.
  assert (Hn : exists n, Z.to_nat (k + 1) = S n)
    by (exists (Z.to_nat k); lia).
  destruct Hn as [n Hn].
  unfold Worker._handle_send_message. rewrite Hmodel. simpl.
  rewrite Hstop.
  destruct (Conversation.get_messages conv); [contradiction|].
  unfold Request.chat_stream. rewrite Hn. simpl.
  rewrite Hstop, Hserver, Hstatus. simpl.
  unfold Worker.on_chunk, Request.is_set. simpl. rewrite !Hstop. simpl.
  rewrite ?Hstop. simpl.
  eexists. split; [reflexivity|]. split; [reflexivity|].
  split; [reflexivity|].
  apply ConversationFacts.add_message_below_capacity.
Qed.

Lemma two_line_stream_completes_witness :
  exists i',
    Worker._handle_send_message 3 Inputs.two_lines Inputs.never
      Inputs.str_exn (Some "llama3"%string) Inputs.one_question 1 =
    ([Worker.message_chunk_received "a"; Worker.message_chunk_received "b";
      Worker.message_completed "ab"],
     Conversation.add_message Inputs.one_question "assistant" "ab" 1, i') /\
    Request.lines_read i' = 2%nat.
Proof.
  destruct (two_line_stream_completes 3 Inputs.two_lines Inputs.never
              Inputs.str_exn (Some "llama3"%string) Inputs.one_question 1
              200 [Request.Json (Request.mkChunk (Some "c"%string) false)] None)
    as (i' & Hrun & Hlines & _).
  - lia.
  - reflexivity.
  - reflexivity.
  - discriminate.
  - reflexivity.
  - reflexivity.
  - exists i'. split; [exact Hrun|exact Hlines].
Defined.

(** C7: in every execution of [_handle_send_message] in which the worker
    reads the stop event as set, before starting or on a chunk, the signals
    emitted are content deltas followed by "stopped", and the cache is the
    one the execution started with. *)
Theorem stop_observed_leaves_cache_unchanged :
  forall (max_retries : Z) (server : Z -> Request.post_reply)
         (stop : nat -> bool) (str_exn : option Request.exn -> string)
         (current_model : option string)
         (conversation : Conversation.ConversationManager) (now : Z)
         sigs conversation' i',
    Worker._handle_send_message max_retries server stop str_exn
      current_model conversation now = (sigs, conversation', i') ->
    In (Request.BeforeStart, true) (Request.log i') \/
    In (Request.OnDelta, true) (Request.log i') ->
    WorkerSpec.stopped_after_deltas sigs /\ conversation' = conversation.
Proof.
  intros k server stop str_exn model conv now sigs conv' i' Hrun Hobs.
  unfold Worker._handle_send_message in Hrun.
  destruct (Worker.model_selected model); simpl in Hrun.
  2:{ inversion Hrun; subst. simpl in Hobs. tauto. }
  destruct (stop 0%nat) eqn:H0.
  { inversion Hrun; subst. split; [exists []|]; auto. }
  assert (Hq : WorkerSpec.quiet [(Request.BeforeStart, false)]).
  { split; intros [H|[]]; discriminate. }
  destruct (Conversation.get_messages conv).
  { inversion Hrun; subst. unfold WorkerSpec.quiet in Hq. simpl in *. tauto. }
  match type of Hrun with context [Request.chat_stream ?k ?s ?st ?b ?a ?i] =>
    pose proof (WorkerFacts.attempts_undisturbed k s st
                  (Z.to_nat (k + 1)) 0 None a i Hq eq_refl) as Hund;
    change (Request.attempts k s st b (Z.to_nat (k + 1)) 0 None a i)
      with (Request.chat_stream k s st b a i) in Hund;
    destruct (Request.chat_stream k s st b a i) as [a' j|a' j|r j|a' last j]
  end; simpl in Hund.
  - exfalso. destruct Hund as [Hq' _].
    pose proof (WorkerFacts.quiet_final j (stop (List.length (Request.log j))) Hq')
      as Hf.
    unfold Request.is_set in Hrun.
    destruct (stop (List.length (Request.log j)));
      [|destruct (Py.truthy _); [|destruct (Worker.stream_started a')]];
      inversion Hrun; subst; unfold WorkerSpec.quiet in Hf; simpl in *; tauto.
  - exfalso. destruct Hund as [Hq' _].
    pose proof (WorkerFacts.quiet_final j (stop (List.length (Request.log j))) Hq')
      as Hf.
    unfold Request.is_set in Hrun.
    destruct (stop (List.length (Request.log j)));
      [|destruct (Py.truthy _); [|destruct (Worker.stream_started a')]];
      inversion Hrun; subst; unfold WorkerSpec.quiet in Hf; simpl in *; tauto.
  - inversion Hrun; subst. auto.
  - exfalso. destruct Hund as [Hq' _].
    pose proof (WorkerFacts.quiet_except j (stop (List.length (Request.log j))) Hq')
      as Hf.
    unfold Request.is_set in Hrun.
    destruct (stop (List.length (Request.log j))); inversion Hrun; subst;
      unfold WorkerSpec.quiet in Hf; simpl in *; tauto.
Qed.

Lemma stop_observed_leaves_cache_unchanged_witness :
  WorkerSpec.stopped_after_deltas
    [Worker.message_chunk_received "a"; Worker.generation_stopped] /\
  Inputs.one_question = Inputs.one_question.
Proof.
  apply (stop_observed_leaves_cache_unchanged 3 Inputs.two_lines
           (Inputs.stop_from 5) Inputs.str_exn (Some "llama3"%string)
           Inputs.one_question 1
           [Worker.message_chunk_received "a"; Worker.generation_stopped]
           Inputs.one_question
           (Request.mkIo
              [(Request.BeforeStart, false); (Request.PreConnect, false);
               (Request.OnLine, false); (Request.OnDelta, false);
               (Request.OnLine, false); (Request.OnDelta, true)]
              1 2 [] Request.STREAMING)).
  - reflexivity.
  - right. simpl. auto 10.
Defined.

(** C8: while the worker is busy, [load_models] and [send_message] return
    false and leave the worker as it is: the task is not recorded and the
    cache does not receive the user message.  With a model selected they
    emit nothing. *)
Theorem enqueue_while_busy_refused :
  forall (w : Worker.OllamaWorker),
    Worker.is_busy w = true ->
    Worker.load_models w = (false, w) /\
    forall message context now,
      exists sigs,
        Worker.send_message w message context now = (false, sigs, w) /\
        (Worker.model_selected (Worker.current_model w) = true -> sigs = []).
Proof.
  intros w Hbusy. split.
  - unfold Worker.load_models. now rewrite Hbusy.
  - intros message context now. unfold Worker.send_message. rewrite Hbusy.
    destruct (Worker.model_selected (Worker.current_model w)); simpl; eauto.
    eexists. split; [reflexivity|discriminate].
Qed.

Lemma enqueue_while_busy_refused_witness :
  Worker.is_busy Inputs.busy_worker = true /\
  Worker.load_models Inputs.busy_worker = (false, Inputs.busy_worker).
Proof.
  split; [reflexivity|].
  apply (enqueue_while_busy_refused Inputs.busy_worker). reflexivity.
Defined.

(** ** Retrieval *)

(** The example of the specification: on a project with one file about the
    refund policy, the context for "refund" with 500 characters is not
    empty, fits, and quotes the policy. *)
Example refund_context :
  let context :=
    KnowledgeBase.get_context_for_query (Inputs.only_proj1 Inputs.faq_only)
      "refund" "proj1" 500 in
  Py.slen context = 392 /\
  FileManager.contains context "Our refund policy" = true.
Proof. split; vm_compute; reflexivity. Qed.




(** C10: for every content, query and [max_length > 0], the snippet has at
    most [max_length + 6] characters, and at most [max_length] when
    neither the query nor one of its words is found; a match in the
    middle of a longer text gives exactly [max_length + 6]. *)
Theorem snippet_length_bound :
  (forall (content query : string) (max_length : Z),
      0 < max_length ->
      Py.slen (KnowledgeBase._extract_relevant_snippet content query max_length)
        <= max_length + 6 /\
      (KnowledgeBase.best_index content query = -1 ->
       KnowledgeBase._extract_relevant_snippet content query max_length
         = Py.str_slice_to max_length content /\
       Py.slen (KnowledgeBase._extract_relevant_snippet content query max_length)
         <= max_length)) /\
  Py.slen (KnowledgeBase._extract_relevant_snippet Inputs.haystack "x" 9)
    = 9 + 6.
Proof.
  split; [|reflexivity].
  intros content query max_length Hpos. split.
  - now apply KnowledgeFacts.snippet_bound.
  - now apply KnowledgeFacts.snippet_no_match.
Qed.

Lemma snippet_length_bound_witness :
  Py.slen (KnowledgeBase._extract_relevant_snippet
             Inputs.faq "refund" 40) <= 40 + 6.
Proof.
  apply (proj1 snippet_length_bound Inputs.faq "refund"%string 40). lia.
Defined.

(** * Further properties of the code *)

(** ** More on the conversation cache *)

Module MoreConversationFacts.

Import Py PyFacts Conversation ConversationFacts.

Lemma filter_not_system_idem (l : list message) :
  filter not_system (filter not_system l) = filter not_system l.
Proof.
  induction l as [|m l IH]; simpl; [reflexivity|].
  destruct (not_system m) eqn:E; simpl; [rewrite E, IH|]; auto.
Qed.

Lemma filter_not_system_id (l : list message) :
  forallb not_system l = true -> filter not_system l = l.
Proof.
  induction l as [|m l IH]; simpl; [reflexivity|].
  intros H. apply andb_prop in H as [Hm Hl]. now rewrite Hm, IH.
Qed.

Lemma systems_have_no_others (l : list message) :
  filter not_system (filter is_system l) = [].
Proof.
  induction l as [|m l IH]; simpl; [reflexivity|].
  destruct (is_system m) eqn:E; simpl; [|assumption].
  unfold not_system at 1. now rewrite E.
Qed.

Lemma slice_from_split {A} (i : Z) (l : list A) :
  exists dropped, l = dropped ++ slice_from i l.
Proof.
  unfold slice_from. eexists. symmetry. apply firstn_skipn.
Qed.

Lemma slice_from_neg_snoc {A} (k : Z) (l : list A) (x : A) :
  0 < k -> exists front, slice_from (- k) (l ++ [x]) = front ++ [x].
Proof.
  intros Hk. unfold slice_from, clamp, len.
  destruct (Z.ltb_spec (- k) 0) as [_|H]; [|lia].
  rewrite length_app. simpl List.length.
  rewrite skipn_app.
  replace (Z.to_nat _ - List.length l)%nat with 0%nat by lia.
  simpl. eauto.
Qed.

Lemma trim_partition cm :
  filter is_system (messages (_trim_messages cm))
    = filter is_system (messages cm) /\
  exists dropped,
    filter not_system (messages cm)
      = dropped ++ filter not_system (messages (_trim_messages cm)).
Proof.
  unfold _trim_messages.
  destruct (_ <=? _); [split; [reflexivity|now exists []]|].
  destruct (filter is_system (messages cm)) as [|s ss] eqn:Hsys; simpl messages.
  - assert (Hall : forallb not_system (messages cm) = true)
      by now apply filter_no_system.
    assert (Hslice : forallb not_system
                       (slice_from (- max_messages cm) (messages cm)) = true)
      by now apply forallb_slice_from.
    split; [now apply no_system_filter|].
    rewrite !filter_not_system_id by assumption.
    apply slice_from_split.
  - rewrite !app_comm_cons, <- Hsys.
    set (others := slice_from _ _).
    assert (Ho : forallb not_system others = true)
      by apply forallb_slice_from, others_no_system.
    rewrite !filter_app, filter_system_idem, systems_have_no_others.
    rewrite (no_system_filter others Ho), (filter_not_system_id others Ho).
    rewrite app_nil_r. split; [reflexivity|].
    apply slice_from_split.
Qed.

Lemma trim_keeps_last cm m :
  system_count (_trim_messages (mkCM (messages cm ++ [m]) (max_messages cm)))
    < max_messages cm ->
  In m (messages (_trim_messages (mkCM (messages cm ++ [m]) (max_messages cm))))
  /\ (is_system m = false ->
      exists front,
        messages (_trim_messages (mkCM (messages cm ++ [m]) (max_messages cm)))
          = front ++ [m]).
Proof.
  unfold _trim_messages, system_count. simpl messages. simpl max_messages.
  destruct (_ <=? _).
  { simpl. intros _. split; [apply in_or_app; right; now left|eauto]. }
  destruct (filter is_system (messages cm ++ [m])) as [|s ss] eqn:Hsys;
    simpl messages.
  - intros Hc.
    assert (0 < max_messages cm)
      by (pose proof (len_nonneg (filter is_system
            (slice_from (- max_messages cm) (messages cm ++ [m])))); lia).
    destruct (slice_from_neg_snoc (max_messages cm) (messages cm) m)
      as [front ->]; [assumption|].
    split; [apply in_or_app; right; now left|eauto].
  - rewrite !app_comm_cons, <- Hsys. intros Hc.
    rewrite filter_app, filter_system_idem, len_app in Hc.
    rewrite (no_system_filter (slice_from _ _)) in Hc
      by (apply forallb_slice_from, others_no_system).
    change (len (@nil message)) with 0 in Hc.
    rewrite !filter_app in *. simpl filter in *.
    destruct (is_system m) eqn:Em.
    + split; [|discriminate].
      apply in_or_app. left. apply in_or_app. right. now left.
    + assert (Hn : not_system m = true)
        by (unfold not_system; now rewrite Em).
      rewrite Hn.
      destruct (slice_from_neg_snoc
                  (max_messages cm - len (filter is_system (messages cm) ++ []))
                  (filter not_system (messages cm)) m) as [front Hf]; [lia|].
      rewrite Hf. split.
      * apply in_or_app. right. apply in_or_app. right. now left.
      * intros _. eexists. rewrite app_assoc. reflexivity.
Qed.

End MoreConversationFacts.

(** Trimming on append never evicts a system message, and the other
    messages it evicts are the oldest ones: those kept are the most recent
    of the others, in their order. *)
Theorem trim_evicts_oldest_others :
  forall (cm : Conversation.ConversationManager) (r c : string) (t : Z),
    let before := Conversation.messages cm ++ [Conversation.mkMessage r c t] in
    let after := Conversation.messages (Conversation.add_message cm r c t) in
    filter Conversation.is_system after = filter Conversation.is_system before /\
    exists evicted,
      filter Conversation.not_system before
        = evicted ++ filter Conversation.not_system after.
Proof.
  intros cm r c t. cbv zeta. unfold Conversation.add_message.
  apply (MoreConversationFacts.trim_partition
           (Conversation.mkCM
              (Conversation.messages cm ++ [Conversation.mkMessage r c t])
              (Conversation.max_messages cm))).
Qed.

(** When fewer system messages than the capacity are stored after an
    append, the message just appended is in the cache, and it is the last
    one unless its role is "system". *)
Theorem appended_message_retained :
  forall (cm : Conversation.ConversationManager) (r c : string) (t : Z),
    Conversation.system_count (Conversation.add_message cm r c t)
      < Conversation.max_messages cm ->
    In (Conversation.mkMessage r c t)
       (Conversation.messages (Conversation.add_message cm r c t)) /\
    (r <> "system"%string ->
     exists front,
       Conversation.messages (Conversation.add_message cm r c t)
         = front ++ [Conversation.mkMessage r c t]).
Proof.
  intros cm r c t H. unfold Conversation.add_message in *.
  destruct (MoreConversationFacts.trim_keeps_last cm
              (Conversation.mkMessage r c t) H) as [Hin Hlast].
  split; [exact Hin|]. intros Hr. apply Hlast.
  unfold Conversation.is_system. simpl.
  destruct (String.eqb_spec r "system"); [contradiction|reflexivity].
Qed.

Lemma appended_message_retained_witness :
  In (Conversation.mkMessage "user" "5" 5)
     (Conversation.messages
        (Conversation.add_message
           (Conversation.run (Conversation.new 3) Inputs.system_and_four)
           "user" "5" 5)).
Proof.
  apply (appended_message_retained
           (Conversation.run (Conversation.new 3) Inputs.system_and_four)
           "user" "5" 5).
  reflexivity.
Defined.

(** Setting the system message twice is setting it once, to the second
    content: the first one is replaced. *)
Theorem set_system_message_replaces :
  forall (cm : Conversation.ConversationManager) (c1 c2 : string) (t1 t2 : Z),
    Conversation.set_system_message
      (Conversation.set_system_message cm c1 t1) c2 t2
    = Conversation.set_system_message cm c2 t2.
Proof.
  intros cm c1 c2 t1 t2. unfold Conversation.set_system_message.
  destruct (Py.truthy (Py.strip c1)); simpl Conversation.messages;
    simpl Conversation.max_messages; simpl filter;
    rewrite MoreConversationFacts.filter_not_system_idem; reflexivity.
Qed.

(** Whatever the cache held, after [set_system_message] the other messages
    are the same in the same order, the capacity is the same, and the
    cache holds one system message, at index 0, or none when the content
    is blank. *)
Theorem set_system_message_pins :
  forall (cm : Conversation.ConversationManager) (c : string) (t : Z),
    let cm' := Conversation.set_system_message cm c t in
    filter Conversation.not_system (Conversation.messages cm')
      = filter Conversation.not_system (Conversation.messages cm) /\
    Conversation.system_pinned (Conversation.messages cm') /\
    Conversation.system_count cm'
      = (if Py.truthy (Py.strip c) then 1 else 0) /\
    Conversation.max_messages cm' = Conversation.max_messages cm.
Proof.
  intros cm c t. cbv zeta. unfold Conversation.set_system_message,
    Conversation.system_count.
  pose proof (ConversationFacts.others_no_system (Conversation.messages cm))
    as Ho.
  destruct (Py.truthy (Py.strip c)); simpl Conversation.messages;
    simpl Conversation.max_messages.
  - simpl filter.
    rewrite MoreConversationFacts.filter_not_system_idem.
    rewrite (ConversationFacts.no_system_filter _ Ho).
    split; [reflexivity|]. split; [|split; reflexivity].
    apply ConversationFacts.tail_clean_pinned. exact Ho.
  - rewrite MoreConversationFacts.filter_not_system_idem.
    rewrite (ConversationFacts.no_system_filter _ Ho).
    split; [reflexivity|]. split; [|split; reflexivity].
    apply ConversationFacts.tail_clean_pinned.
    unfold ConversationSpec.tail_clean.
    destruct (filter Conversation.not_system (Conversation.messages cm));
      simpl in *; [reflexivity|]. now apply andb_prop in Ho.
Qed.

(** ** More on the request layer *)

Module SortFacts.

Import Py.

Section Sort.

Context {A : Type}.
Variable le : A -> A -> bool.

Lemma insert_by_permutation x l : Permutation (x :: l) (insert_by le x l).
Proof.
  induction l as [|y l IH]; simpl; [reflexivity|].
  destruct (le x y); [reflexivity|].
  rewrite perm_swap. now apply perm_skip.
Qed.

Lemma sort_by_permutation l : Permutation l (sort_by le l).
Proof.
  induction l as [|x l IH]; simpl; [reflexivity|].
  rewrite <- insert_by_permutation. now apply perm_skip.
Qed.

Hypothesis le_total : forall x y, le x y = true \/ le y x = true.

Lemma insert_by_sorted x l :
  Sorted (fun a b => le a b = true) l ->
  Sorted (fun a b => le a b = true) (insert_by le x l).
Proof.
  induction l as [|y l IH]; simpl; intros Hs.
  - repeat constructor.
  - destruct (le x y) eqn:E.
    + constructor; [assumption|]. now constructor.
    + apply Sorted_inv in Hs as [Hs Hhd].
      constructor; [now apply IH|].
      destruct l as [|z l]; simpl.
      * constructor. destruct (le_total x y); congruence.
      * destruct (le x z); constructor.
        -- destruct (le_total x y); congruence.
        -- now apply HdRel_inv in Hhd.
Qed.

Lemma sort_by_sorted l : Sorted (fun a b => le a b = true) (sort_by le l).
Proof.
  induction l as [|x l IH]; simpl; [constructor|].
  now apply insert_by_sorted.
Qed.

End Sort.

End SortFacts.

Module MoreRequestFacts.

Import Request RequestFacts.

Section Loop.

Variable max_retries : Z.
Variable server : Z -> get_reply.
Variable jitter : Z -> Q.

Lemma get_models_loop_counts (n : nat) :
  forall attempt made sleeps last,
    attempt + Z.of_nat n = max_retries + 1 ->
    let r := get_models_loop max_retries server jitter n attempt made sleeps last in
    exists a ds,
      gm_attempts r = (made + a)%nat /\ gm_sleeps r = sleeps ++ ds /\
      (a <= n)%nat /\ List.length ds = Nat.pred a /\
      Forall (fun d => (d <= 30)%Q) ds /\ ((0 < n)%nat -> (1 <= a)%nat).
Proof.
  induction n as [|n IH]; intros attempt made sleeps last Hsum; cbv zeta;
    simpl get_models_loop.
  - exists 0%nat, []. simpl. rewrite app_nil_r.
    repeat split; auto; lia.
  - destruct (get_once (server attempt)) as [models|e].
    + exists 1%nat, []. simpl. rewrite app_nil_r.
      repeat split; auto; lia.
    + destruct (_should_retry max_retries e attempt) eqn:R.
      * apply should_retry_iff in R as [Hlt _].
        destruct (IH (attempt + 1) (S made)
                    (sleeps ++ [_exponential_backoff attempt (jitter attempt)])
                    (Some e)) as (a & ds & Ha & Hs & Hle & Hlen & Hcap & Hpos);
          [lia|].
        assert (1 <= a)%nat by (apply Hpos; lia).
        exists (S a), (_exponential_backoff attempt (jitter attempt) :: ds).
        rewrite Ha, Hs, <- app_assoc. simpl.
        repeat split; auto; try lia.
        constructor; [apply backoff_capped|assumption].
      * exists 1%nat, []. simpl. rewrite app_nil_r.
        repeat split; auto; lia.
Qed.

Lemma get_models_loop_success (n : nat) :
  forall attempt made sleeps last models,
    gm_result (get_models_loop max_retries server jitter n attempt made sleeps last)
      = inl models ->
    exists j, attempt <= j < attempt + Z.of_nat n /\
              get_once (server j) = inl models.
Proof.
  induction n as [|n IH]; intros attempt made sleeps last models;
    simpl get_models_loop; [discriminate|].
  destruct (get_once (server attempt)) as [ms|e] eqn:E.
  - simpl. intros H. injection H as <-. exists attempt. split; [lia|exact E].
  - destruct (_should_retry max_retries e attempt); [|discriminate].
    intros H. apply IH in H as (j & Hj & Hget). exists j. split; [lia|exact Hget].
Qed.

End Loop.

Lemma get_once_success (r : get_reply) (models : list string) :
  get_once r = inl models ->
  exists status names,
    r = GetStatus status (Some names) /\ status_raises status = false /\
    models = sorted names.
Proof.
  destruct r as [e|status [names|]]; simpl; [discriminate| |];
    destruct (status_raises status) eqn:E; try discriminate.
  intros H. injection H as <-. eauto.
Qed.

End MoreRequestFacts.

(** Whatever the server does, [get_models] issues at most
    [max_retries + 1] GETs, sleeps once between two GETs and not after the
    last one, and never sleeps more than 30 seconds. *)
Theorem get_models_attempts_bounded :
  forall (max_retries : Z) (server : Z -> Request.get_reply) (jitter : Z -> Q),
    let r := Request.get_models max_retries server jitter in
    (Request.gm_attempts r <= Z.to_nat (max_retries + 1))%nat /\
    List.length (Request.gm_sleeps r) = Nat.pred (Request.gm_attempts r) /\
    Forall (fun d => (d <= 30)%Q) (Request.gm_sleeps r).
Proof.
  intros k server jitter. cbv zeta. unfold Request.get_models.
  destruct (Z_lt_le_dec (k + 1) 0) as [Hneg|Hpos].
  - replace (Z.to_nat (k + 1)) with 0%nat by lia. simpl.
    repeat split; auto.
  - destruct (MoreRequestFacts.get_models_loop_counts k server jitter
                (Z.to_nat (k + 1)) 0 0%nat [] None)
      as (a & ds & Ha & Hs & Hle & Hlen & Hcap & _); [lia|].
    rewrite Ha, Hs. simpl. auto.
Qed.

(** When [get_models] returns a list, it is the list of names of one of the
    replies, rearranged in ascending order, and that reply had a status
    outside 400..599. *)
Theorem get_models_sorted_names :
  forall (max_retries : Z) (server : Z -> Request.get_reply) (jitter : Z -> Q)
         (models : list string),
    Request.gm_result (Request.get_models max_retries server jitter)
      = inl models ->
    Sorted (fun a b => String.leb a b = true) models /\
    exists attempt status names,
      0 <= attempt <= max_retries /\
      server attempt = Request.GetStatus status (Some names) /\
      Request.status_raises status = false /\
      Permutation names models.
Proof.
  intros k server jitter models H. unfold Request.get_models in H.
  apply MoreRequestFacts.get_models_loop_success in H as (j & Hj & Hget).
  apply MoreRequestFacts.get_once_success in Hget
    as (status & names & Hreply & Hstatus & ->).
  split.
  - apply SortFacts.sort_by_sorted. apply String.leb_total.
  - exists j, status, names. repeat split; auto; try lia.
    apply SortFacts.sort_by_permutation.
Qed.

Lemma get_models_sorted_names_witness :
  Sorted (fun a b => String.leb a b = true) ["gemma"; "llama3"; "mistral"]%string.
Proof.
  apply (get_models_sorted_names 3 MoreInputs.third_time_lucky Inputs.half
           ["gemma"; "llama3"; "mistral"]%string).
  reflexivity.
Defined.

(** ** More on [chat_stream] *)

Module ChatStreamFacts.

Import Request Worker MoreSpec.

Section Collect.

Variable max_retries : Z.
Variable server : Z -> post_reply.
Variable stop : nat -> bool.

(** *** Lines that are not chunks *)

Hypothesis never_set : forall n, stop n = false.

Lemma stream_lines_collect ls :
  forall a i,
    exists i',
      stream_lines stop collect
        (fun a i => Exhausted a (set_state COMPLETED i)) ls a i
      = Exhausted (a ++ chunks_of ls) i' /\
      state i' = COMPLETED /\ posts i' = posts i /\
      lines_read i' = (lines_read i + List.length ls)%nat /\
      sleeps i' = sleeps i.
Proof.
  induction ls as [|l ls IH]; intros a i; simpl.
  - exists (set_state COMPLETED i). rewrite app_nil_r. simpl.
    repeat split; auto.
  - unfold is_set. rewrite never_set.
    match goal with |- context [stream_lines _ _ _ ls _ ?j] =>
      set (i1 := j) end.
    destruct l as [| |c];
      [| |change (collect c a i1)
            with (@Continue (list chunk) unit (a ++ [c]) i1); cbv iota].
    + destruct (IH a i1) as (i' & E & Hst & Hp & Hl & Hs).
      exists i'. rewrite E. simpl in *. repeat split; auto. lia.
    + destruct (IH a i1) as (i' & E & Hst & Hp & Hl & Hs).
      exists i'. rewrite E. simpl in *. repeat split; auto. lia.
    + destruct (IH (a ++ [c]) i1) as (i' & E & Hst & Hp & Hl & Hs).
      exists i'. rewrite E, <- app_assoc. simpl in *. repeat split; auto. lia.
Qed.

End Collect.

Section Reads.

Variable max_retries : Z.
Variable server : Z -> post_reply.
Variable stop : nat -> bool.

(** *** The reads of the stop event *)

Lemma all_unset_app l1 l2 :
  all_unset l1 -> all_unset l2 -> all_unset (l1 ++ l2).
Proof. unfold all_unset. intros. apply Forall_app. auto. Qed.

Lemma ends_from_later {A R} l0 pre (r : for_result A R) :
  all_unset pre -> ends_from (l0 ++ pre) r -> ends_from l0 r.
Proof.
  intros Hpre (reads & Hlog & Hr). exists (pre ++ reads).
  split; [now rewrite Hlog, app_assoc|].
  destruct r as [a i|a i|x i|a last i]; simpl in *; try contradiction.
  - destruct Hr as [Hr|[(front & s & -> & Hf) Hst]].
    + left. now apply all_unset_app.
    + right. split; [|assumption].
      exists (pre ++ front), s. split; [now rewrite app_assoc|].
      now apply all_unset_app.
  - now apply all_unset_app.
Qed.

Lemma ends_from_stop {A R} (a : A) (i : io) s :
  @ends_from A R (log i)
    (Exhausted a (set_state STOPPED
       (mkIo (log i ++ [(s, true)]) (posts i) (lines_read i) (sleeps i)
             (state i)))).
Proof.
  exists [(s, true)]. split; [reflexivity|]. simpl. right.
  split; [|reflexivity]. exists [], s. split; [reflexivity|constructor].
Qed.

Lemma unset_one s : all_unset [(s, false)].
Proof. repeat constructor. Qed.

Lemma after_retries_ends {A R} last (a : A) i :
  @ends_from A R (log i) (after_retries stop last a i).
Proof.
  unfold after_retries, is_set. destruct (stop _).
  - apply ends_from_stop.
  - exists [(AfterRetries, false)]. split; [reflexivity|]. apply unset_one.
Qed.

Lemma on_failure_ends {A R} attempt e again (a : A) i :
  (forall last a j, log j = log i ++ [(OnFailure, false)] ->
                    @ends_from A R (log j) (again last a j)) ->
  ends_from (log i) (on_failure max_retries stop attempt e again a i).
Proof.
  intros Hagain. unfold on_failure, is_set. simpl log.
  destruct (stop _).
  - apply (ends_from_stop a (set_state ERROR i)).
  - apply (ends_from_later _ [(OnFailure, false)]); [apply unset_one|].
    destruct (_should_retry _ _ _).
    + match goal with |- context [again _ _ ?j] =>
        specialize (Hagain (Some e) a j eq_refl); exact Hagain end.
    + match goal with |- context [after_retries _ _ _ ?j] =>
        exact (after_retries_ends (Some e) a j) end.
Qed.

Lemma stream_lines_ends at_end ls :
  (forall a j, @ends_from (list chunk) unit (log j) (at_end a j)) ->
  forall a i, ends_from (log i) (stream_lines stop collect at_end ls a i).
Proof.
  intros Hend. induction ls as [|l ls IH]; intros a i; simpl; [apply Hend|].
  unfold is_set. simpl log.
  destruct (stop _).
  - apply (ends_from_stop a (count_line i)).
  - apply (ends_from_later _ [(OnLine, false)]); [apply unset_one|].
    match goal with |- context [stream_lines _ _ _ ls _ ?j] =>
      set (i1 := j) end.
    destruct l as [| |c];
      [| |change (collect c a i1)
            with (@Continue (list chunk) unit (a ++ [c]) i1); cbv iota];
      apply (IH _ i1).
Qed.

Lemma attempts_ends n :
  forall attempt last a i,
    ends_from (log i)
      (attempts max_retries server stop collect n attempt last a i).
Proof.
  induction n as [|n IH]; intros attempt last a i; simpl.
  - apply after_retries_ends.
  - unfold is_set. simpl log.
    destruct (stop _).
    + apply (ends_from_stop a (set_state CONNECTING i)).
    + apply (ends_from_later _ [(PreConnect, false)]); [apply unset_one|].
      assert (Hagain : forall j last a k,
                log k = log j ++ [(OnFailure, false)] ->
                ends_from (log k)
                  (attempts max_retries server stop collect n (attempt + 1)
                     last a k))
        by (intros; apply IH).
      destruct (server attempt) as [e|status lines ending].
      * match goal with |- context [on_failure _ _ _ _ _ _ ?j] =>
          exact (on_failure_ends attempt e _ a j (Hagain j)) end.
      * destruct (status_raises status).
        -- match goal with |- context [on_failure _ _ _ _ _ _ ?j] =>
             exact (on_failure_ends attempt _ _ a j (Hagain j)) end.
        -- match goal with |- context [stream_lines _ _ _ _ _ ?j] =>
             apply (stream_lines_ends _ lines) with (i := j) end.
           intros a' j. destruct ending as [e|].
           ++ apply on_failure_ends. apply Hagain.
           ++ exists []. split; [now rewrite app_nil_r|].
              simpl. left. constructor.
Qed.

End Reads.

End ChatStreamFacts.

(** Empty and malformed lines are skipped without failing the stream: when
    the stop event is never set and the first POST succeeds and its body
    ends normally, [chat_stream] yields the chunks among the lines, in
    order, takes every line, posts once and does not sleep. *)
Theorem malformed_lines_skipped :
  forall (max_retries : Z) (server : Z -> Request.post_reply)
         (stop : nat -> bool) (i : Request.io)
         (status : Z) (lines : list Request.line),
    0 <= max_retries ->
    (forall n, stop n = false) ->
    Request.status_raises status = false ->
    server 0 = Request.PostStatus status lines None ->
    exists i',
      Worker.chat_stream_chunks max_retries server stop i
        = Request.Exhausted (MoreSpec.chunks_of lines) i' /\
      Request.state i' = Request.COMPLETED /\
      Request.posts i' = S (Request.posts i) /\
      Request.lines_read i'
        = (Request.lines_read i + List.length lines)%nat /\
      Request.sleeps i' = Request.sleeps i.
Proof.
  intros k server stop i status lines Hk Hstop Hstatus Hserver.
  assert (Hn : exists n, Z.to_nat (k + 1) = S n)
    by (exists (Z.to_nat k); lia).
  destruct Hn as [n Hn].
  unfold Worker.chat_stream_chunks, Request.chat_stream. rewrite Hn. simpl.
  unfold Request.is_set. rewrite Hstop, Hserver, Hstatus.
  match goal with |- context [Request.stream_lines _ _ _ _ _ ?j] =>
    destruct (ChatStreamFacts.stream_lines_collect stop Hstop lines [] j)
      as (i' & E & Hst & Hp & Hl & Hs)
  end.
  exists i'. rewrite E. simpl in *. auto.
Qed.

Lemma malformed_lines_skipped_witness :
  exists i',
    Worker.chat_stream_chunks 3 MoreInputs.noisy Inputs.never Request.io0
      = Request.Exhausted
          [Request.mkChunk (Some "a"%string) false;
           Request.mkChunk (Some "b"%string) true] i' /\
    Request.lines_read i' = 4%nat.
Proof.
  destruct (malformed_lines_skipped 3 MoreInputs.noisy Inputs.never Request.io0
              200
              [Request.Json (Request.mkChunk (Some "a"%string) false);
               Request.EmptyLine; Request.BadJson;
               Request.Json (Request.mkChunk (Some "b"%string) true)])
    as (i' & E & _ & _ & Hl & _).
  - lia.
  - reflexivity.
  - reflexivity.
  - reflexivity.
  - exists i'. split; [exact E|exact Hl].
Defined.

(** [chat_stream] acts on the stop event at once: a read that finds it set
    is the last thing the generator does, and it then ends without raising,
    in the state STOPPED; it raises only when no read found the event
    set. *)
Theorem stop_read_ends_stream :
  forall (max_retries : Z) (server : Z -> Request.post_reply)
         (stop : nat -> bool) (i : Request.io),
    let r := Worker.chat_stream_chunks max_retries server stop i in
    exists reads,
      Request.log (MoreSpec.io_of r) = Request.log i ++ reads /\
      MoreSpec.stops_cleanly reads r.
Proof.
  intros k server stop i.
  apply (ChatStreamFacts.attempts_ends k server stop).
Qed.

(** ** More on the worker *)

Module MoreWorkerFacts.

Import Request Worker WorkerSpec MoreSpec.

Lemma append_empty (s : string) : (s ++ "")%string = s.
Proof. induction s as [|c s IH]; simpl; [reflexivity|]. now rewrite IH. Qed.

Lemma delta_text_app l1 l2 :
  delta_text (l1 ++ l2) = (delta_text l1 ++ delta_text l2)%string.
Proof.
  induction l1 as [|s l1 IH]; simpl; [reflexivity|].
  destruct s; auto. now rewrite IH, StringFacts.append_assoc.
Qed.

Section Invariant.

Variable max_retries : Z.
Variable server : Z -> post_reply.
Variable stop : nat -> bool.

Context {A R : Type}.
Variable body : chunk -> A -> io -> body_result A R.
Variable P : A -> Prop.
Variable Q : R -> Prop.

Hypothesis body_keeps :
  forall c a i, P a ->
    match body c a i with
    | Continue a' _ | Break a' _ => P a'
    | Return r _ => Q r
    end.

Lemma after_retries_kept last a i :
  P a -> kept P Q (after_retries stop last a i).
Proof. intros H. unfold after_retries, is_set. now destruct (stop _). Qed.

Lemma on_failure_kept attempt e again a i :
  (forall last a i, P a -> kept P Q (again last a i)) ->
  P a -> kept P Q (on_failure max_retries stop attempt e again a i).
Proof.
  intros Hagain H. unfold on_failure, is_set.
  destruct (stop _); [assumption|].
  destruct (_should_retry _ _ _); [now apply Hagain|].
  now apply after_retries_kept.
Qed.

Lemma stream_lines_kept at_end ls :
  (forall a i, P a -> kept P Q (at_end a i)) ->
  forall a i, P a -> kept P Q (stream_lines stop body at_end ls a i).
Proof.
  intros Hend. induction ls as [|l ls IH]; intros a i H; simpl; [auto|].
  unfold is_set. destruct (stop _); [assumption|].
  destruct l as [| |c]; try (now apply IH).
  match goal with |- context [body c a ?j] =>
    pose proof (body_keeps c a j H) as Hb; destruct (body c a j)
  end; simpl; auto.
Qed.

Lemma attempts_kept n :
  forall attempt last a i,
    P a -> kept P Q (attempts max_retries server stop body n attempt last a i).
Proof.
  induction n as [|n IH]; intros attempt last a i H; simpl.
  - now apply after_retries_kept.
  - unfold is_set. destruct (stop _); [assumption|].
    destruct (server attempt) as [e|status lines ending].
    + apply on_failure_kept; auto.
    + destruct (status_raises status).
      * apply on_failure_kept; auto.
      * apply stream_lines_kept; auto.
        intros a' i' H'. destruct ending; simpl; auto.
        apply on_failure_kept; auto.
Qed.

End Invariant.

Section Counts.

Variable max_retries : Z.
Variable server : Z -> post_reply.
Variable stop : nat -> bool.

Lemma within_here {A R} (r : for_result A R) p0 s0 p s :
  posts (io_of r) = S p0 -> List.length (sleeps (io_of r)) = s0 ->
  within p0 s0 (S p) s r.
Proof.
  intros Hp Hs. exists 1%nat, 0%nat. rewrite Hp, Hs.
  repeat split; lia.
Qed.

Lemma after_retries_within {A R} last (a : A) i p0 s0 p s :
  posts i = S p0 -> List.length (sleeps i) = s0 ->
  @within A R p0 s0 (S p) s (after_retries stop last a i).
Proof.
  intros Hp Hs. apply within_here; unfold after_retries, is_set;
    destruct (stop _); assumption.
Qed.

Lemma on_failure_within {A R} attempt e again (a : A) i p0 s0 n :
  posts i = S p0 -> List.length (sleeps i) = s0 ->
  (_should_retry max_retries e attempt = true -> (1 <= n)%nat) ->
  (forall last a j,
      posts j = S p0 -> List.length (sleeps j) = S s0 ->
      @within A R (S p0) (S s0) n (Nat.pred n) (again last a j)) ->
  within p0 s0 (S n) n (on_failure max_retries stop attempt e again a i).
Proof.
  intros Hp Hs Hn Hagain. unfold on_failure, is_set.
  destruct (stop _); [now apply within_here|].
  destruct (_should_retry max_retries e attempt).
  - match goal with |- context [again _ _ ?j] =>
      destruct (Hagain (Some e) a j) as (p' & s' & Ep & Es & Lp & Ls & Lps)
    end; [assumption|simpl; rewrite length_app; simpl; lia|].
    specialize (Hn eq_refl).
    exists (S p'), (S s'). rewrite Ep, Es. repeat split; lia.
  - now apply after_retries_within.
Qed.

Lemma on_chunk_counts c a i :
  match on_chunk stop c a i with
  | Continue _ j | Break _ j | Return _ j =>
      posts j = posts i /\ sleeps j = sleeps i
  end.
Proof.
  unfold on_chunk, is_set. destruct (stop _); simpl; auto.
  destruct (done c); simpl; auto.
Qed.

Lemma stream_lines_within at_end ls p0 s0 n :
  (forall a j, posts j = S p0 -> List.length (sleeps j) = s0 ->
               within p0 s0 (S n) n (at_end a j)) ->
  forall a i, posts i = S p0 -> List.length (sleeps i) = s0 ->
    within p0 s0 (S n) n (stream_lines stop (on_chunk stop) at_end ls a i).
Proof.
  intros Hend. induction ls as [|l ls IH]; intros a i Hp Hs; simpl; [auto|].
  unfold is_set. destruct (stop _); [now apply within_here|].
  destruct l as [| |c]; try (now apply IH).
  match goal with |- context [on_chunk stop c a ?j] =>
    pose proof (on_chunk_counts c a j) as Hc; destruct (on_chunk stop c a j)
  end; destruct Hc as [Hcp Hcs]; simpl in Hcp, Hcs.
  - apply IH; [now rewrite Hcp|now rewrite Hcs].
  - apply within_here; simpl; [now rewrite Hcp|now rewrite Hcs].
  - apply within_here; simpl; [now rewrite Hcp|now rewrite Hcs].
Qed.

Lemma attempts_within n :
  forall attempt last a i,
    attempt + Z.of_nat n = max_retries + 1 ->
    within (posts i) (List.length (sleeps i)) n (Nat.pred n)
      (attempts max_retries server stop (on_chunk stop) n attempt last a i).
Proof.
  induction n as [|n IH]; intros attempt last a i Hsum; simpl.
  - exists 0%nat, 0%nat. unfold after_retries, is_set.
    destruct (stop _); simpl; repeat split; lia.
  - unfold is_set.
    destruct (stop _).
    { exists 0%nat, 0%nat. simpl. repeat split; lia. }
    assert (Hretry : forall e, _should_retry max_retries e attempt = true ->
                               (1 <= n)%nat).
    { intros e He. apply RequestFacts.should_retry_iff in He. lia. }
    assert (Hagain : forall last a j,
               posts j = S (posts i) ->
               List.length (sleeps j) = S (List.length (sleeps i)) ->
               within (S (posts i)) (S (List.length (sleeps i))) n (Nat.pred n)
                 (attempts max_retries server stop (on_chunk stop) n
                    (attempt + 1) last a j)).
    { intros last' a' j Hp Hs. rewrite <- Hp, <- Hs. apply IH. lia. }
    destruct (server attempt) as [e|status lines ending].
    + apply on_failure_within; auto; apply Hretry.
    + destruct (status_raises status).
      * apply on_failure_within; auto; apply Hretry.
      * apply stream_lines_within; auto.
        intros a' j Hp Hs. destruct ending as [e|].
        -- apply on_failure_within; auto; apply Hretry.
        -- now apply within_here.
Qed.

End Counts.

End MoreWorkerFacts.

(** A send-message task ends with exactly one of "stopped", "completed"
    and "error", after content deltas only.  The text of "completed" is
    the concatenation of the deltas, and the cache changes in that case
    alone, and only when the text is not empty: it then receives the text
    as an assistant message. *)
Theorem send_message_outcome :
  forall (max_retries : Z) (server : Z -> Request.post_reply)
         (stop : nat -> bool) (str_exn : option Request.exn -> string)
         (current_model : option string)
         (conversation : Conversation.ConversationManager) (now : Z),
    let r := Worker._handle_send_message max_retries server stop str_exn
               current_model conversation now in
    exists deltas t,
      fst (fst r) = deltas ++ [t] /\
      forallb WorkerSpec.is_delta deltas = true /\
      match t with
      | Worker.message_completed full =>
          full = MoreSpec.delta_text deltas /\
          snd (fst r) =
            (if Py.truthy full
             then Conversation.add_message conversation "assistant" full now
             else conversation)
      | Worker.generation_stopped | Worker.error_occurred _ =>
          snd (fst r) = conversation
      | _ => False
      end.
Proof.
  intros k server stop str_exn model conv now. cbv zeta.
  unfold Worker._handle_send_message.
  destruct (Worker.model_selected model); simpl.
  2:{ exists [], (Worker.error_occurred "Nessun modello selezionato").
      simpl. repeat split. }
  destruct (stop 0%nat).
  { exists [], Worker.generation_stopped. simpl. repeat split. }
  destruct (Conversation.get_messages conv).
  { exists [], (Worker.error_occurred "Nessun messaggio da inviare").
    simpl. repeat split. }
  set (P := fun a : Worker.acc =>
              forallb WorkerSpec.is_delta (Worker.emitted a) = true /\
              Worker.full_response a = MoreSpec.delta_text (Worker.emitted a)).
  assert (Hbody : forall c a i, P a ->
            match Worker.on_chunk stop c a i with
            | Request.Continue a' _ | Request.Break a' _ => P a'
            | Request.Return sigs _ => WorkerSpec.stopped_after_deltas sigs
            end).
  { intros c a i [Hd Hf]. unfold Worker.on_chunk, Request.is_set. simpl.
    destruct (stop _).
    - exists (Worker.emitted a). auto.
    - assert (Hp : P (Worker.mkAcc (Worker.full_response a)
                        (Worker.chunk_count a) true (Worker.emitted a)))
        by (split; assumption).
      destruct (Request.message_content c) as [content|];
        [destruct (Py.truthy content)|]; destruct (Request.done c);
        try exact Hp; (split; simpl;
          [rewrite forallb_app, Hd; reflexivity
          |rewrite MoreWorkerFacts.delta_text_app, Hf; simpl;
           now rewrite MoreWorkerFacts.append_empty]). }
  match goal with |- context [Request.chat_stream ?k ?s ?st ?b ?a ?i] =>
    pose proof (MoreWorkerFacts.attempts_kept k s st b P
                  WorkerSpec.stopped_after_deltas Hbody
                  (Z.to_nat (k + 1)) 0 None a i (conj eq_refl eq_refl))
      as Hk;
    change (Request.attempts k s st b (Z.to_nat (k + 1)) 0 None a i)
      with (Request.chat_stream k s st b a i) in Hk;
    destruct (Request.chat_stream k s st b a i) as [a' j|a' j|sigs j|a' last j]
  end; simpl in Hk.
  - destruct Hk as [Hd Hf]. unfold Request.is_set.
    destruct (stop _);
      [|destruct (Py.truthy (Worker.full_response a')) eqn:Et;
        [|destruct (Worker.stream_started a')]];
      eexists (Worker.emitted a'), _; simpl;
      (split; [reflexivity|]); (split; [exact Hd|]); auto.
    + split; [exact Hf|]. now rewrite Et.
    + rewrite <- Hf. split; [|reflexivity].
      destruct (Worker.full_response a'); [reflexivity|discriminate].
  - destruct Hk as [Hd Hf]. unfold Request.is_set.
    destruct (stop _);
      [|destruct (Py.truthy (Worker.full_response a')) eqn:Et;
        [|destruct (Worker.stream_started a')]];
      eexists (Worker.emitted a'), _; simpl;
      (split; [reflexivity|]); (split; [exact Hd|]); auto.
    + split; [exact Hf|]. now rewrite Et.
    + rewrite <- Hf. split; [|reflexivity].
      destruct (Worker.full_response a'); [reflexivity|discriminate].
  - destruct Hk as (deltas & -> & Hd).
    exists deltas, Worker.generation_stopped. simpl. repeat split; auto.
  - destruct Hk as [Hd Hf]. unfold Request.is_set.
    destruct (stop _); eexists (Worker.emitted a'), _; simpl;
      (split; [reflexivity|]); (split; [exact Hd|]); reflexivity.
Qed.

(** A send-message task posts at most [max_retries + 1] times and sleeps
    at most [max_retries] times, never more often than it has posted. *)
Theorem send_message_posts_bounded :
  forall (max_retries : Z) (server : Z -> Request.post_reply)
         (stop : nat -> bool) (str_exn : option Request.exn -> string)
         (current_model : option string)
         (conversation : Conversation.ConversationManager) (now : Z),
    let i' := snd (Worker._handle_send_message max_retries server stop str_exn
                     current_model conversation now) in
    (Request.posts i' <= Z.to_nat (max_retries + 1))%nat /\
    (List.length (Request.sleeps i') <= Z.to_nat max_retries)%nat /\
    (List.length (Request.sleeps i') <= Request.posts i')%nat.
Proof.
  intros k server stop str_exn model conv now. cbv zeta.
  unfold Worker._handle_send_message.
  destruct (Worker.model_selected model); simpl; [|lia].
  destruct (stop 0%nat); [simpl; lia|].
  destruct (Conversation.get_messages conv); [simpl; lia|].
  assert (Hw : forall a i,
            Request.posts i = 0%nat -> Request.sleeps i = [] ->
            MoreSpec.within 0 0 (Z.to_nat (k + 1)) (Nat.pred (Z.to_nat (k + 1)))
              (Request.chat_stream k server stop (Worker.on_chunk stop) a i)).
  { intros a i Hp Hs. unfold Request.chat_stream.
    destruct (Z.to_nat (k + 1)) as [|n] eqn:En.
    - simpl. unfold Request.after_retries, Request.is_set.
      exists 0%nat, 0%nat.
      destruct (stop _); simpl; rewrite Hp, Hs; simpl; repeat split; lia.
    - pose proof (MoreWorkerFacts.attempts_within k server stop (S n) 0 None a i)
        as H. rewrite Hp, Hs in H. apply H. lia. }
  match goal with |- context [Request.chat_stream ?k ?s ?st ?b ?a ?i] =>
    specialize (Hw a i eq_refl eq_refl);
    destruct (Request.chat_stream k s st b a i) as [a' j|a' j|sigs j|a' last j]
  end; destruct Hw as (p' & s' & Hp & Hs & Lp & Ls & Lps); simpl in Hp, Hs;
    unfold Request.is_set;
    repeat match goal with
           | |- context [if ?b then _ else _] => destruct b
           end; simpl; rewrite ?Hp, ?Hs; lia.
Qed.


(** ** The load-models task and the connection monitor *)

Module MonitorFacts.

Import ConnectionMonitor MoreSpec.

Lemma last_of_snoc {A} (l : list A) x : last_of (l ++ [x]) = Some x.
Proof.
  unfold last_of. rewrite map_app. simpl. apply last_last.
Qed.

Lemma alternating_snoc l p :
  alternating l = true -> last_of l <> Some p ->
  alternating (l ++ [p]) = true.
Proof.
  induction l as [|a l IH]; [reflexivity|].
  destruct l as [|b l].
  - simpl. unfold last_of. simpl. intros _ H.
    destruct a, p; simpl; try reflexivity; now elim H.
  - intros Ha Hl. simpl in Ha. apply andb_prop in Ha as [Hab Ha].
    change ((a :: b :: l) ++ [p]) with (a :: ((b :: l) ++ [p])).
    change (alternating (a :: (b :: l) ++ [p]))
      with (negb (Bool.eqb a b) && alternating ((b :: l) ++ [p])).
    rewrite Hab. apply IH; [exact Ha|].
    unfold last_of in *. simpl in *. exact Hl.
Qed.

Lemma monitor_run_snoc polls p : run (polls ++ [p]) = round (run polls) p.
Proof. unfold run. now rewrite fold_left_app. Qed.

Lemma differs_false current last :
  differs current last = false -> last = Some current.
Proof.
  destruct last as [b|]; simpl; [|discriminate].
  destruct current, b; simpl; congruence.
Qed.

Lemma differs_true current last :
  differs current last = true -> last <> Some current.
Proof.
  destruct last as [b|]; simpl; [|discriminate].
  destruct current, b; simpl; congruence.
Qed.

Lemma run_invariant polls :
  let m := run polls in
  alternating (changes m) = true /\
  last_of (changes m) = last_status m /\
  last_status m = last_of polls /\
  waits m = map (fun _ => 30000) polls.
Proof.
  induction polls as [|p polls IH] using rev_ind; [repeat split|].
  cbv zeta in *. rewrite monitor_run_snoc. destruct IH as (Ha & Hl & Hs & Hw).
  unfold round. rewrite map_app, last_of_snoc.
  destruct (differs p (last_status (run polls))) eqn:E; simpl.
  - rewrite last_of_snoc, Hw. repeat split.
    apply alternating_snoc; [exact Ha|].
    rewrite Hl. now apply differs_true.
  - apply differs_false in E. rewrite Hw. repeat split; congruence.
Qed.

End MonitorFacts.

(** The connection monitor reports changes only: it emits the first
    result, then a result only when it differs from the one before, so no
    two values emitted in a row are equal and the last value emitted is
    the last result; it waits 30 seconds after every test. *)
Theorem monitor_reports_changes_only :
  forall (polls : list bool),
    let m := ConnectionMonitor.run polls in
    MoreSpec.alternating (ConnectionMonitor.changes m) = true /\
    MoreSpec.last_of (ConnectionMonitor.changes m) = MoreSpec.last_of polls /\
    ConnectionMonitor.last_status m = MoreSpec.last_of polls /\
    ConnectionMonitor.waits m = map (fun _ => 30000) polls.
Proof.
  intros polls. destruct (MonitorFacts.run_invariant polls) as (Ha & Hl & Hs & Hw).
  cbv zeta. repeat split; congruence.
Qed.


(** ** More on retrieval *)

Module MoreKnowledgeFacts.

Import Py PyFacts StringFacts FileManager KnowledgeBase KnowledgeFacts MoreSpec.

Lemma prefix_append (s t : string) : String.prefix s (s ++ t) = true.
Proof.
  induction s as [|c s IH]; simpl; [now destruct t|].
  destruct (ascii_dec c c); [assumption|contradiction].
Qed.

Lemma rstrip_keeps (s1 s2 : string) :
  rstrip s1 = s1 -> exists t, rstrip (s1 ++ s2) = (s1 ++ t)%string.
Proof.
  induction s1 as [|c s1 IH]; intros H.
  - exists (rstrip s2). reflexivity.
  - simpl in H. simpl.
    destruct (rstrip s1) as [|d r] eqn:E.
    + destruct (isspace c) eqn:Ec; [discriminate|].
      injection H as <-. simpl. exists (rstrip s2).
      destruct (rstrip s2); reflexivity.
    + injection H as H. destruct (IH H) as [t Ht]. exists t. rewrite Ht.
      rewrite <- H. reflexivity.
Qed.

Section Build.

Variable db : database.
Variable query : string.
Variable max_context_length : Z.

Lemma build_extends results :
  forall context current_length,
    exists tail,
      build db query max_context_length results context current_length
      = (context ++ tail)%string.
Proof.
  induction results as [|result results IH]; intros context cur; cbn [build].
  - exists EmptyString. now rewrite MoreWorkerFacts.append_empty.
  - destruct (cur >=? max_context_length);
      [exists EmptyString; now rewrite MoreWorkerFacts.append_empty|].
    destruct (usable _); [|apply IH].
    destruct (_ <=? max_context_length).
    + match goal with |- context [build _ _ _ results (context ++ ?add) ?c] =>
        destruct (IH (context ++ add)%string c) as [tail Ht];
        exists (add ++ tail)%string; rewrite Ht end.
      symmetry. apply append_assoc.
    + destruct (_ >? 100); [eauto|].
      exists EmptyString. now rewrite MoreWorkerFacts.append_empty.
Qed.

Lemma context_for_heading u us :
  String.prefix heading
    (context_for db query max_context_length (u :: us)) = true.
Proof.
  unfold context_for.
  destruct (build_extends (slice_to 3 (u :: us)) header (slen header))
    as [tail ->].
  unfold strip.
  change (lstrip (header ++ tail))
    with (heading ++ (nl ++ nl ++ tail))%string.
  destruct (rstrip_keeps heading (nl ++ nl ++ tail) eq_refl) as [t ->].
  apply prefix_append.
Qed.

End Build.

(** Duplicates *)

Lemma existsb_eqb_In x seen :
  existsb (Z.eqb x) seen = true <-> In x seen.
Proof.
  rewrite existsb_exists. split.
  - intros (y & Hy & E). apply Z.eqb_eq in E. now subst.
  - intros H. exists x. split; [assumption|apply Z.eqb_refl].
Qed.

Lemma unique_fresh seen results :
  forall x, In x (map file_id (unique seen results)) -> ~ In x seen.
Proof.
  revert seen. induction results as [|r rs IH]; intros seen x; simpl; [tauto|].
  destruct (existsb (Z.eqb (file_id r)) seen) eqn:E; [apply IH|].
  simpl. intros [<-|H].
  - rewrite <- existsb_eqb_In. now rewrite E.
  - apply IH in H. intros Hx. apply H. now right.
Qed.

Lemma unique_nodup seen results :
  NoDup (map file_id (unique seen results)).
Proof.
  revert seen. induction results as [|r rs IH]; intros seen; simpl;
    [constructor|].
  destruct (existsb (Z.eqb (file_id r)) seen); [apply IH|].
  simpl. constructor; [|apply IH].
  intros H. apply unique_fresh in H. apply H. now left.
Qed.

Lemma unique_covers seen results :
  forall r, In r results ->
    In (file_id r) seen \/ In (file_id r) (map file_id (unique seen results)).
Proof.
  revert seen. induction results as [|r0 rs IH]; intros seen r; simpl; [tauto|].
  destruct (existsb (Z.eqb (file_id r0)) seen) eqn:E.
  - intros [<-|H]; [left; now apply existsb_eqb_In|now apply IH].
  - simpl. intros [<-|H]; [right; now left|].
    destruct (IH (file_id r0 :: seen) r H) as [[<-|Hs]|Hu]; auto.
Qed.

(** Search results *)

Lemma find_lower_bound hay needle : -1 <= find hay needle.
Proof. unfold find. destruct (find_from needle hay 0); lia. Qed.



Lemma length_sort_by {A} (le : A -> A -> bool) l :
  List.length (sort_by le l) = List.length l.
Proof.
  symmetry. apply Permutation_length, SortFacts.sort_by_permutation.
Qed.

(** The snippet of a short content *)

Lemma first_word_index_lower_bound content words :
  -1 <= first_word_index content words.
Proof.
  induction words as [|w ws IH]; simpl; [lia|].
  destruct (negb _); [apply find_lower_bound|assumption].
Qed.

Lemma best_index_lower_bound content query : -1 <= best_index content query.
Proof.
  unfold best_index. destruct (negb _);
    [apply find_lower_bound|apply first_word_index_lower_bound].
Qed.

Lemma str_firstn_all n s :
  (String.length s <= n)%nat -> str_firstn n s = s.
Proof.
  revert s. induction n as [|n IH]; intros [|c s]; simpl; auto; try lia.
  intros H. rewrite IH; [reflexivity|lia].
Qed.

End MoreKnowledgeFacts.

(** A context block that is not empty begins with the heading: the block is
    empty when the project directory is missing or no file is a candidate,
    and begins with "CONTESTO DALLA KNOWLEDGE BASE:" otherwise, even when no
    file content fits. *)
Theorem context_begins_with_heading :
  forall (projects : string -> option FileManager.database)
         (query project_id : string) (max_length : Z),
    let r := KnowledgeBase.get_context_for_query projects query project_id
               max_length in
    match projects project_id with
    | None => r = EmptyString
    | Some db =>
        match KnowledgeBase.candidates db query project_id with
        | [] => r = EmptyString
        | _ :: _ => String.prefix MoreSpec.heading r = true
        end
    end.
Proof.
  intros projects query project_id max_length. cbv zeta.
  unfold KnowledgeBase.get_context_for_query.
  destruct (projects project_id) as [db|]; [|reflexivity].
  destruct (KnowledgeBase.candidates db query project_id) as [|u us];
    [reflexivity|].
  apply MoreKnowledgeFacts.context_for_heading.
Qed.

(** Removing duplicates keeps one result for every file id found, and no
    result that was not found. *)
Theorem unique_results_distinct :
  forall (results : list FileManager.search_result),
    NoDup (map FileManager.file_id (KnowledgeBase.unique [] results)) /\
    incl (KnowledgeBase.unique [] results) results /\
    incl (map FileManager.file_id results)
         (map FileManager.file_id (KnowledgeBase.unique [] results)).
Proof.
  intros results. split; [apply MoreKnowledgeFacts.unique_nodup|]. split.
  - intros r. apply KnowledgeFacts.In_unique.
  - intros x Hx. apply in_map_iff in Hx as (r & <- & Hr).
    destruct (MoreKnowledgeFacts.unique_covers [] results r Hr) as [[]|H].
    exact H.
Qed.


(** When the content is no longer than [max_length] and the match, if there
    is one, starts within the first [max_length // 3] characters, the
    snippet is the content itself, with no marker. *)
Theorem snippet_of_short_content :
  forall (content query : string) (max_length : Z),
    Py.slen content <= max_length ->
    KnowledgeBase.best_index content query <= max_length / 3 ->
    KnowledgeBase._extract_relevant_snippet content query max_length = content.
Proof.
  intros content query m Hlen Hidx.
  unfold KnowledgeBase._extract_relevant_snippet.
  pose proof (MoreKnowledgeFacts.best_index_lower_bound content query) as Hb.
  pose proof (StringFacts.slen_nonneg content) as Hc.
  destruct (Z.leb_spec m 0) as [Hm|Hm].
  - destruct content; [reflexivity|]. unfold Py.slen in *. simpl in *. lia.
  - destruct (Z.eqb_spec (KnowledgeBase.best_index content query) (-1)).
    + unfold Py.str_slice_to, Py.clamp.
      destruct (Z.ltb_spec m 0); [lia|].
      apply MoreKnowledgeFacts.str_firstn_all. unfold Py.slen in *. lia.
    + replace (Z.max 0 (KnowledgeBase.best_index content query - m / 3))
        with 0 by lia.
      replace (Z.min (Py.slen content) (0 + m)) with (Py.slen content) by lia.
      rewrite Z.ltb_irrefl. change (0 >? 0) with false. cbv iota.
      unfold Py.str_slice, Py.clamp.
      destruct (Z.ltb_spec 0 0); [lia|].
      destruct (Z.ltb_spec (Py.slen content) 0); [lia|].
      replace (Z.to_nat (Z.min 0 (Py.slen content))) with 0%nat by lia.
      simpl Py.str_skipn.
      apply MoreKnowledgeFacts.str_firstn_all. unfold Py.slen in *. lia.
Qed.

Lemma snippet_of_short_content_witness :
  KnowledgeBase._extract_relevant_snippet Inputs.faq "refund" 400 = Inputs.faq.
Proof.
  apply (snippet_of_short_content Inputs.faq "refund"%string 400).
  - vm_compute. discriminate.
  - vm_compute. discriminate.
Defined.

(** ** The processed content of a file *)

Module ProcessFacts.

Import Py StringFacts FileManager MoreSpec.



















End ProcessFacts.

